(** * golem/core/keysauth.py: key management of a Golem node

    A shallow embedding of [golem.core.keysauth] and the properties of its
    load-or-generate logic, difficulty predicate, key file persistence and
    signature verification wrapper.

    Python values are modelled as follows:
    - [int] is [Z] (unbounded), [bytes] is [list byte], [str] is [string];
    - [float] is IEEE 754 binary64, through the executable specification
      [SpecFloat] of the standard library (precision 53, emax 1024);
    - a raised exception is the [Raise] branch of [result];
    - the file system, the log, the random generator and the clock are the
      fields of an explicit [world] threaded through every effectful call. *)

From Stdlib Require Import ZArith Lia Bool List Ascii String.
From Stdlib Require Import DecimalString DecimalFacts DecimalPos.
From Stdlib Require Strings.Byte.
From Stdlib Require Import Floats.SpecFloat.
From stdpp Require Import base option gmap strings list fin_maps.

Local Open Scope Z_scope.

(** ** Python data *)

Abbreviation bytes := (list Byte.byte).

(** [Union[bytes, str]], the type of the key arguments. *)
Inductive pykey :=
| KBytes (b : bytes)
| KStr (s : string).

(** The exception classes the module raises, catches or lets through. All of
    them derive from Python's [Exception], as do the exceptions the external
    collaborators raise on their inputs; interpreter signals such as
    [KeyboardInterrupt] are not part of the model. *)
Inductive exn_class :=
| FileNotFoundError
| PermissionError
| IsADirectoryError
| OSError
| ArithmeticError
| ZeroDivisionError
| OverflowError
| AssertionError
| ValueError
| TypeError
| OtherException (name : string).

Record exn := mkExn { exn_cls : exn_class; exn_msg : string }.

Inductive result (A : Type) :=
| Ok (a : A)
| Raise (e : exn).
Arguments Ok {A} a.
Arguments Raise {A} e.

Definition rbind {A B} (r : result A) (k : A -> result B) : result B :=
  match r with
  | Ok a => k a
  | Raise e => Raise e
  end.

(** [isinstance(e, AssertionError)] *)
Definition is_AssertionError (e : exn) : bool :=
  match exn_cls e with AssertionError => true | _ => false end.

(** [len(b)] for bytes, as a Python int. *)
Definition blen (b : bytes) : Z := Z.of_nat (List.length b).

(** [len(s)] for str. *)
Definition slen (s : string) : Z := Z.of_nat (String.length s).

Definition pylen (k : pykey) : Z :=
  match k with
  | KBytes b => blen b
  | KStr s => slen s
  end.

(** [str(n)] for an int. *)
Definition str_int (n : Z) : string := NilZero.string_of_int (Z.to_int n).

(** [str.encode()] on the ASCII strings the module handles. *)
Definition str_encode (s : string) : bytes := list_byte_of_string s.

(** [int.from_bytes(b, 'big')] *)
Definition int_from_bytes_big (b : bytes) : Z :=
  fold_left (fun acc x => acc * 256 + Z.of_N (Byte.to_N x)) b 0.

(** [a << n]; a negative shift count raises [ValueError]. *)
Definition py_lshift (a n : Z) : result Z :=
  if n <? 0 then Raise (mkExn ValueError "negative shift count")
  else Ok (Z.shiftl a n).

(** ** Floats (binary64) *)

Abbreviation float := spec_float.
Definition prec : Z := 53.
Definition emax : Z := 1024.

(** [float(n)]: correctly rounded (to nearest, ties to even); an int that
    rounds beyond the largest double, that is one of magnitude at least
    [2^1024 - 2^970], raises [OverflowError]. *)
Definition float_of_int (n : Z) : result float :=
  if Z.abs n <? 2 ^ 1024 - 2 ^ 970
  then Ok (binary_normalize prec emax n 0 false)
  else Raise (mkExn OverflowError "int too large to convert to float").

(** [x / y] on floats; a zero divisor raises [ZeroDivisionError]. *)
Definition float_div (x y : float) : result float :=
  match y with
  | S754_zero _ => Raise (mkExn ZeroDivisionError "float division by zero")
  | _ => Ok (SFdiv prec emax x y)
  end.

Definition float_one : float := S754_finite false 4503599627370496 (-52).
Definition float_zero : float := S754_zero false.

(** ** External collaborators

    [hashlib.sha256], [golem_messages.cryptography], [Crypto.Random.random],
    [golem.utils], [golem.core.simpleenv], [golem.core.variables] and
    [math.log2] are consumed as black boxes. Their lengths are the ones the
    libraries guarantee: a SHA-256 digest has 32 bytes, [mk_privkey] returns a
    32-byte digest and [privtopub] asserts a 64-byte result. *)
Class Externals := {
  (** [hashlib.sha256(m).digest()] *)
  sha256 : bytes -> bytes;
  sha256_len : forall m, List.length (sha256 m) = 32%nat;
  (** [golem_messages.cryptography.mk_privkey(seed)] *)
  mk_privkey : string -> bytes;
  mk_privkey_len : forall s, List.length (mk_privkey s) = 32%nat;
  (** [golem_messages.cryptography.privtopub(raw_privkey)] *)
  privtopub : bytes -> bytes;
  privtopub_len : forall k, List.length k = 32%nat ->
                            List.length (privtopub k) = 64%nat;
  (** [golem_messages.cryptography.ecdsa_verify(pubkey, signature, message)] *)
  ecdsa_verify : pykey -> bytes -> bytes -> result bool;
  (** [Crypto.Random.random.randrange(start, stop)]: the value returned by the
      [i]-th draw of the process; it lies in the half-open range. *)
  randrange : nat -> Z -> Z -> Z;
  randrange_range : forall i a b, a < b -> a <= randrange i a b < b;
  (** [golem.utils.decode_hex] *)
  decode_hex : pykey -> result bytes;
  (** [golem.core.simpleenv.get_local_datadir] *)
  get_local_datadir : string -> string;
  (** [golem.core.variables.PRIVATE_KEY] *)
  PRIVATE_KEY : string;
  (** [str(x)] for a float *)
  str_float : float -> string;
  (** [math.log2(n)] for an int *)
  math_log2 : Z -> result float;
  (** [256 - x] for a float *)
  float_rsub : Z -> float -> float
}.

(** A stand-in for the external collaborators with the guaranteed lengths,
    on which the statements below can be evaluated: constant digests and keys,
    a verifier that accepts, a decoder that knows one string, and a
    generator that returns 10^17 - 1 whenever the range allows it. *)
Definition sample_randrange (i : nat) (a b : Z) : Z :=
  if (a <=? 10 ^ 17 - 1) && (10 ^ 17 - 1 <? b) then 10 ^ 17 - 1 else a.

Definition sample_decode_hex (k : pykey) : result bytes :=
  match k with
  | KStr "ab" => Ok [Byte.xab]
  | _ => Raise (mkExn ValueError "non-hexadecimal number found")
  end.

Definition sample_externals : Externals :=
  {| sha256 := fun _ => repeat Byte.x00 32;
     sha256_len := fun _ => eq_refl;
     mk_privkey := fun _ => repeat Byte.x01 32;
     mk_privkey_len := fun _ => eq_refl;
     privtopub := fun _ => repeat Byte.x02 64;
     privtopub_len := fun _ _ => eq_refl;
     ecdsa_verify := fun _ _ _ => Ok true;
     randrange := sample_randrange;
     randrange_range := fun i a b (H : a < b) =>
       ltac:(unfold sample_randrange;
             destruct (Z.leb_spec a (10 ^ 17 - 1)),
                      (Z.ltb_spec (10 ^ 17 - 1) b); simpl; lia);
     decode_hex := sample_decode_hex;
     get_local_datadir := fun _ => "/var/golem";
     PRIVATE_KEY := "golem_private_key.peer";
     str_float := fun _ => "0.5";
     math_log2 := fun _ => Ok float_zero;
     float_rsub := fun _ x => x |}.

(** [sys.maxsize] of a 64-bit interpreter. *)
Definition maxsize : Z := 2 ^ 63 - 1.

(** ** The world the module acts on *)

(** Why opening an existing file for reading fails. *)
Inductive read_error :=
| EACCES
| EIO (msg : string).

Definition exn_of_read_error (e : read_error) : exn :=
  match e with
  | EACCES => mkExn PermissionError "Permission denied"
  | EIO msg => mkExn OSError msg
  end.

(** A directory entry for a file: its bytes, and the error [open(path, 'rb')]
    raises on it, if any. *)
Record node := mkNode { data : bytes; rd_err : option read_error }.

Inductive level := INFO | WARNING | ERROR.

Record world := mkWorld {
  files : gmap string node;      (* files by path *)
  dirs : gset string;            (* directories by path *)
  draws : nat;                   (* random draws consumed so far *)
  now : string;                  (* datetime.now().strftime("%Y-%m-%d_%H-%M-%S_%f") *)
  log : list (level * string)    (* records emitted through [logger] *)
}.

Definition set_files (f : gmap string node) (w : world) : world :=
  mkWorld f (dirs w) (draws w) (now w) (log w).
Definition set_dirs (d : gset string) (w : world) : world :=
  mkWorld (files w) d (draws w) (now w) (log w).
Definition set_draws (n : nat) (w : world) : world :=
  mkWorld (files w) (dirs w) n (now w) (log w).
Definition set_log (l : list (level * string)) (w : world) : world :=
  mkWorld (files w) (dirs w) (draws w) (now w) l.

(** What running a piece of the module yields: a value or an exception with
    the world it leaves, or nothing yet when the iteration budget given to an
    unbounded loop ran out. *)
Inductive outcome (A : Type) :=
| Done (r : result A) (w : world)
| OutOfFuel.
Arguments Done {A} r w.
Arguments OutOfFuel {A}.

Definition M (A : Type) : Type := world -> outcome A.

Definition ret {A} (a : A) : M A := fun w => Done (Ok a) w.
Definition raise {A} (e : exn) : M A := fun w => Done (Raise e) w.
Definition lift {A} (r : result A) : M A := fun w => Done r w.
Definition bind {A B} (c : M A) (k : A -> M B) : M B :=
  fun w =>
    match c w with
    | Done (Ok a) w' => k a w'
    | Done (Raise e) w' => Done (Raise e) w'
    | OutOfFuel => OutOfFuel
    end.

Declare Scope py_scope.
Delimit Scope py_scope with py.
Notation "'let!' x ':=' c 'in' k" := (bind c (fun x => k))
  (at level 10, x name, c at level 100, k at level 200) : py_scope.
Notation "'do!' c 'in' k" := (bind c (fun _ => k))
  (at level 10, c at level 100, k at level 200) : py_scope.
Local Open Scope py_scope.

(** [logger.info], [logger.warning], [logger.error] *)
Definition logger (lvl : level) (msg : string) : M unit :=
  fun w => Done (Ok tt) (set_log (log w ++ [(lvl, msg)]) w).

(** [open(path, 'rb').read()] *)
Definition open_rb_read (path : string) : M bytes :=
  fun w =>
    match files w !! path with
    | None =>
        if bool_decide (path ∈ dirs w)
        then Done (Raise (mkExn IsADirectoryError "Is a directory")) w
        else Done (Raise (mkExn FileNotFoundError "No such file or directory")) w
    | Some n =>
        match rd_err n with
        | Some e => Done (Raise (exn_of_read_error e)) w
        | None => Done (Ok (data n)) w
        end
    end.

(** [open(path, 'wb').write(key)]: creates or truncates the file; a
    directory cannot be opened for writing. *)
Definition open_wb_write (path : string) (key : bytes) : M unit :=
  fun w =>
    if bool_decide (path ∈ dirs w)
    then Done (Raise (mkExn IsADirectoryError "Is a directory")) w
    else Done (Ok tt) (set_files (<[path := mkNode key None]> (files w)) w).

(** [os.path.exists(path)] *)
Definition os_path_exists (path : string) : M bool :=
  fun w => Done (Ok (bool_decide (is_Some (files w !! path))
                     || bool_decide (path ∈ dirs w))) w.

(** [os.path.isdir(path)] *)
Definition os_path_isdir (path : string) : M bool :=
  fun w => Done (Ok (bool_decide (path ∈ dirs w))) w.

(** [os.makedirs(path)] *)
Definition os_makedirs (path : string) : M unit :=
  fun w => Done (Ok tt) (set_dirs ({[path]} ∪ dirs w) w).

(** The world after the entry at [src], a file or a directory, has moved
    to [dst], replacing a file there. *)
Definition rename_entry (src dst : string) (w : world) : world :=
  let w :=
    match files w !! src with
    | Some n => set_files (<[dst := n]> (delete src (files w))) w
    | None => w
    end in
  if bool_decide (src ∈ dirs w)
  then set_dirs ({[dst]} ∪ (dirs w ∖ {[src]})) w
  else w.

(** [os.rename(src, dst)] *)
Definition os_rename (src dst : string) : M unit :=
  fun w => Done (Ok tt) (rename_entry src dst w).

(** [datetime.now().strftime("%Y-%m-%d_%H-%M-%S_%f")] *)
Definition datetime_now_strftime : M string :=
  fun w => Done (Ok (now w)) w.

(** ** posixpath and str helpers *)

Definition slash : ascii := "/"%char.

Fixpoint str_take (n : nat) (s : string) : string :=
  match n, s with
  | S n', String c r => String c (str_take n' r)
  | _, _ => EmptyString
  end.

Fixpoint str_drop (n : nat) (s : string) : string :=
  match n, s with
  | S n', String _ r => str_drop n' r
  | _, _ => s
  end.

(** [s.rfind(c) + 1] *)
Fixpoint rfind_succ (c : ascii) (s : string) : nat :=
  match s with
  | EmptyString => 0
  | String a r =>
      match rfind_succ c r with
      | S i => S (S i)
      | O => if Ascii.eqb a c then 1 else 0
      end
  end.

(** [s == c * len(s)] *)
Fixpoint all_char (c : ascii) (s : string) : bool :=
  match s with
  | EmptyString => true
  | String a r => Ascii.eqb a c && all_char c r
  end.

(** [s.rstrip(c)] *)
Fixpoint rstrip (c : ascii) (s : string) : string :=
  match s with
  | EmptyString => EmptyString
  | String a r =>
      match rstrip c r with
      | EmptyString => if Ascii.eqb a c then EmptyString else String a EmptyString
      | r' => String a r'
      end
  end.

(** [s.endswith(c)] *)
Fixpoint endswith (c : ascii) (s : string) : bool :=
  match s with
  | EmptyString => false
  | String a EmptyString => Ascii.eqb a c
  | String _ r => endswith c r
  end.

(** [s.startswith(c)] *)
Definition startswith (c : ascii) (s : string) : bool :=
  match s with
  | String a _ => Ascii.eqb a c
  | EmptyString => false
  end.

(** [s.replace(old, new)] for one-character arguments. *)
Fixpoint str_replace (old new : ascii) (s : string) : string :=
  match s with
  | EmptyString => EmptyString
  | String a r => String (if Ascii.eqb a old then new else a) (str_replace old new r)
  end.

(** [c in s] *)
Fixpoint has_char (c : ascii) (s : string) : bool :=
  match s with
  | EmptyString => false
  | String a r => Ascii.eqb a c || has_char c r
  end.

Definition str_nonempty (s : string) : bool :=
  match s with EmptyString => false | _ => true end.

(** [os.path.split(p)] *)
Definition os_path_split (p : string) : string * string :=
  let i := rfind_succ slash p in
  let head := str_take i p in
  let tail := str_drop i p in
  let head :=
    if str_nonempty head && negb (all_char slash head)
    then rstrip slash head else head in
  (head, tail).

(** [os.path.join(a, b)] *)
Definition os_path_join (a b : string) : string :=
  if startswith slash b then b
  else if negb (str_nonempty a) || endswith slash a then (a ++ b)%string
  else (a ++ "/" ++ b)%string.

Section KeysAuth.

Context `{Ext : Externals}.

(** ** Module level functions *)

(** [sha2(seed)] *)
Definition sha2 (seed : pykey) : Z :=
  let seed :=
    match seed with
    | KStr s => str_encode s
    | KBytes b => b
    end in
  int_from_bytes_big (sha256 seed).

(** ** The difficulty predicate *)

Definition KEYS_SUBDIR : string := "keys".
Definition PRIV_KEY_LEN : Z := 32.
Definition PUB_KEY_LEN : Z := 64.
Definition HEX_PUB_KEY_LEN : Z := 128.
Definition KEY_ID_LEN : Z := 128.

(** [KeysAuth._count_max_hash(difficulty)] *)
Definition _count_max_hash (difficulty : Z) : result Z :=
  py_lshift 2 (256 - difficulty - 1).

(** [KeysAuth.is_pubkey_difficult(pub_key, difficulty)] *)
Definition is_pubkey_difficult (pub_key : pykey) (difficulty : Z) : result bool :=
  rbind (match pub_key with
         | KStr _ => decode_hex pub_key
         | KBytes b => Ok b
         end) (fun pub_key =>
  let h := sha2 (KBytes pub_key) in
  rbind (_count_max_hash difficulty) (fun max_hash =>
  Ok (h <? max_hash))).

(** The hash of a key read as a big-endian integer. *)
Definition hash_as_int (k : bytes) : Z := int_from_bytes_big (sha256 k).

(** [self.is_difficult]'s predicate on raw bytes within the difficulty range:
    used where a Boolean is needed and no exception can occur. *)
Definition difficult_enough (pub_key : bytes) (d : Z) : bool :=
  hash_as_int pub_key <? 2 ^ (256 - d).

(** ** RandomnessSource *)

(** [get_random(min_value, max_value)] *)
Definition get_random (min_value : Z) (max_value : option Z) : M Z :=
  let max_value :=
    match max_value with
    | None => maxsize
    | Some m => m
    end in
  if min_value >? max_value
  then raise (mkExn ArithmeticError "max_value should be greater than min_value")
  else if min_value =? max_value
  then ret min_value
  else fun w =>
         Done (Ok (randrange (draws w) min_value max_value))
              (set_draws (S (draws w)) w).

(** The expression of line 50 of the module, at a drawn [result = r]:
    [float(result - 1) / float(10 ** len(str(result)))]. *)
Definition get_random_float_of (r : Z) : result float :=
  rbind (float_of_int (r - 1)) (fun x =>
  rbind (float_of_int (10 ^ slen (str_int r))) (fun y =>
  float_div x y)).

(** [get_random_float()] *)
Definition get_random_float : M float :=
  let! r := get_random 2 None in
  lift (get_random_float_of r).

(** ** KeyStore *)

(** [KeysAuth._get_or_create_keys_dir(datadir)] *)
Definition _get_or_create_keys_dir (datadir : string) : M string :=
  let path := if str_nonempty datadir then datadir
              else get_local_datadir "default" in
  let keys_dir := os_path_join path KEYS_SUBDIR in
  let! isdir := os_path_isdir keys_dir in
  do! (if negb isdir then os_makedirs keys_dir else ret tt) in
  ret keys_dir.

(** [KeysAuth._load_and_check_keys(private_key_path, difficulty)] *)
Definition _load_and_check_keys (private_key_path : string) (difficulty : Z)
  : M (option (bytes * bytes)) :=
  fun w =>
    match open_rb_read private_key_path w with
    | Done (Raise e) w' =>
        match exn_cls e with
        | FileNotFoundError => Done (Ok None) w'
        | _ => Done (Raise e) w'
        end
    | OutOfFuel => OutOfFuel
    | Done (Ok priv_key) w' =>
        (if negb (blen priv_key =? PRIV_KEY_LEN)
         then
           do! logger ERROR ("Wrong loaded private key size: "
                               ++ str_int (blen priv_key) ++ ".") in
           ret None
         else
           let pub_key := privtopub priv_key in
           let! difficult := lift (is_pubkey_difficult (KBytes pub_key) difficulty) in
           if negb difficult
           then
             do! logger WARNING "Loaded key is not difficult enough." in
             ret None
           else ret (Some (priv_key, pub_key))) w'
    end.

(** The name [backup_file] gives to the backup of [path] at time stamp
    [date]. *)
Definition backup_path (path date : string) : string :=
  let '(dirname, filename) := os_path_split path in
  let filename_bak := (str_replace "." "_" filename ++ "_" ++ date ++ ".bak")%string in
  os_path_join dirname filename_bak.

(** [backup_file(path)], the local function of [_save_private_key]. *)
Definition backup_file (path : string) : M unit :=
  let! ex := os_path_exists path in
  if ex
  then
    do! logger INFO "Backing up existing private key." in
    let! date := datetime_now_strftime in
    os_rename path (backup_path path date)
  else ret tt.

(** [KeysAuth._save_private_key(key, key_path)] *)
Definition _save_private_key (key : bytes) (key_path : string) : M unit :=
  do! backup_file key_path in
  open_wb_write key_path key.

(** ** KeyPairGenerator *)

(** One pass through the body of the [while True] loop of [_generate_keys]:
    the candidate pair and whether it makes the loop [break]. *)
Definition generate_candidate (difficulty : Z) : M (bytes * bytes * bool) :=
  let! x := get_random_float in
  let priv_key := mk_privkey (str_float x) in
  let pub_key := privtopub priv_key in
  let! difficult := lift (is_pubkey_difficult (KBytes pub_key) difficulty) in
  ret (priv_key, pub_key, difficult).

(** The [while True] loop, run for at most [fuel] iterations. *)
Fixpoint generate_loop (fuel : nat) (difficulty : Z) : M (bytes * bytes) :=
  match fuel with
  | O => fun _ => OutOfFuel
  | S fuel' =>
      let! c := generate_candidate difficulty in
      let '(priv_key, pub_key, difficult) := c in
      if difficult then ret (priv_key, pub_key)
      else generate_loop fuel' difficulty
  end.

(** [KeysAuth._generate_keys(difficulty)] *)
Definition _generate_keys (fuel : nat) (difficulty : Z) : M (bytes * bytes) :=
  do! logger INFO "Generating new key pair." in
  generate_loop fuel difficulty.

(** ** KeysAuth *)

(** [golem_messages.cryptography.ECCx(raw_privkey)], the context bound to a
    private key. *)
Inductive ECC := ECCx (raw_privkey : bytes).

(** The lowercase hexadecimal digit of a value below 16. *)
Definition hex_digit (n : N) : ascii :=
  match n with
  | 0 => "0" | 1 => "1" | 2 => "2" | 3 => "3" | 4 => "4" | 5 => "5"
  | 6 => "6" | 7 => "7" | 8 => "8" | 9 => "9" | 10 => "a" | 11 => "b"
  | 12 => "c" | 13 => "d" | 14 => "e" | _ => "f"
  end%N%char.

(** Modelled from the spec: [golem.utils.encode_hex] is not part of the
    sources at hand; the key id is the hexadecimal encoding of the public
    key. *)
Fixpoint encode_hex (b : bytes) : string :=
  match b with
  | [] => EmptyString
  | x :: r =>
      let n := Byte.to_N x in
      String (hex_digit (n / 16)) (String (hex_digit (n mod 16)) (encode_hex r))
  end.

Record KeysAuth := mkKeysAuth {
  difficulty : Z;
  _private_key : bytes;
  _private_key_path : string;
  public_key : bytes;
  key_id : string;
  ecc : ECC
}.

(** [KeysAuth.__init__(datadir, private_key_name, difficulty)] *)
Definition __init__ (fuel : nat) (datadir private_key_name : string)
    (difficulty : Z) : M KeysAuth :=
  let! keys_dir := _get_or_create_keys_dir datadir in
  let path := os_path_join keys_dir private_key_name in
  let! loaded_keys := _load_and_check_keys path difficulty in
  let! keys :=
    match loaded_keys with
    | Some keys => ret keys
    | None =>
        let! keys := _generate_keys fuel difficulty in
        do! _save_private_key (fst keys) path in
        ret keys
    end in
  let '(priv_key, pub_key) := keys in
  ret (mkKeysAuth difficulty priv_key path pub_key (encode_hex pub_key)
                  (ECCx priv_key)).

(** [self.is_difficult(difficulty)] *)
Definition is_difficult (self : KeysAuth) (d : Z) : result bool :=
  is_pubkey_difficult (KBytes (public_key self)) d.

(** What [get_difficulty] returns: the cached int, or a computed float. *)
Inductive number :=
| NInt (n : Z)
| NFloat (x : float).

(** [self.get_difficulty(key_id)]; [not key_id] holds for [None] and for the
    empty string. *)
Definition get_difficulty (self : KeysAuth) (key_id : option string)
  : result number :=
  match key_id with
  | None => Ok (NInt (difficulty self))
  | Some s =>
      if negb (str_nonempty s) then Ok (NInt (difficulty self))
      else
        rbind (decode_hex (KStr s)) (fun raw =>
        rbind (math_log2 (sha2 (KBytes raw))) (fun l =>
        Ok (NFloat (float_rsub 256 l))))
  end.

(** The body of the [try] block of [verify]. *)
Definition verify_try (self : KeysAuth) (sig data : bytes)
    (public_key_arg : option pykey) : result bool :=
  let public_key_arg :=
    match public_key_arg with
    | None => KBytes (public_key self)
    | Some k => k
    end in
  rbind (if pylen public_key_arg =? HEX_PUB_KEY_LEN
         then rbind (decode_hex public_key_arg) (fun b => Ok (KBytes b))
         else Ok public_key_arg) (fun public_key_arg =>
  ecdsa_verify public_key_arg sig data).

(** [self.verify(sig, data, public_key)] *)
Definition verify (self : KeysAuth) (sig data : bytes)
    (public_key_arg : option pykey) : M bool :=
  fun w =>
    match verify_try self sig data public_key_arg with
    | Ok b => Done (Ok b) w
    | Raise e =>
        if is_AssertionError e
        then (do! logger INFO "Wrong key format" in ret false) w
        else (do! logger ERROR ("Cannot verify signature: " ++ exn_msg e) in
              ret false) w
    end.

(** The directory [_get_or_create_keys_dir(datadir)] returns. *)
Definition keys_dir_of (datadir : string) : string :=
  os_path_join (if str_nonempty datadir then datadir
                else get_local_datadir "default") KEYS_SUBDIR.

(** The record [verify] logs for an exception caught in its [try] block. *)
Definition verify_log_record (e : exn) : level * string :=
  if is_AssertionError e then (INFO, "Wrong key format")
  else (ERROR, ("Cannot verify signature: " ++ exn_msg e)%string).

(** The world [_get_or_create_keys_dir(datadir)] leaves. *)
Definition with_keys_dir (datadir : string) (w : world) : world :=
  if bool_decide (keys_dir_of datadir ∈ dirs w) then w
  else set_dirs ({[keys_dir_of datadir]} ∪ dirs w) w.

(** The world after [n] more random draws. *)
Definition advance (n : nat) (w : world) : world :=
  set_draws (draws w + n) w.

End KeysAuth.

(** ** Encryption and signatures

    [ECCx.ecies_encrypt], [ECCx.ecies_decrypt] and [ECCx.sign] of
    [golem_messages.cryptography], consumed as black boxes that may raise. *)
Class Crypto := {
  (** [ECCx.ecies_encrypt(data, raw_pubkey)], a static method *)
  ecies_encrypt : bytes -> pykey -> result bytes;
  (** [ecc.ecies_decrypt(data)] *)
  ecies_decrypt : ECC -> bytes -> result bytes;
  (** [ecc.sign(data)] *)
  ecc_sign : ECC -> bytes -> result bytes
}.

Section KeysAuthCrypto.

Context `{Ext : Externals} `{Cry : Crypto}.

(** [self.encrypt(data, public_key)] *)
Definition encrypt (self : KeysAuth) (data : bytes)
    (public_key_arg : option pykey) : result bytes :=
  let public_key_arg :=
    match public_key_arg with
    | None => KBytes (public_key self)
    | Some k => k
    end in
  rbind (if pylen public_key_arg =? HEX_PUB_KEY_LEN
         then rbind (decode_hex public_key_arg) (fun b => Ok (KBytes b))
         else Ok public_key_arg) (fun public_key_arg =>
  ecies_encrypt data public_key_arg).

(** [self.decrypt(data)] *)
Definition decrypt (self : KeysAuth) (data : bytes) : result bytes :=
  ecies_decrypt (ecc self) data.

(** [self.sign(data)] *)
Definition sign (self : KeysAuth) (data : bytes) : result bytes :=
  ecc_sign (ecc self) data.

End KeysAuthCrypto.

(** A stand-in for the encryption and signature primitives: the ciphertext
    and the signature are the message itself. *)
Definition sample_crypto : Crypto :=
  {| ecies_encrypt := fun data _ => Ok data;
     ecies_decrypt := fun _ data => Ok data;
     ecc_sign := fun _ data => Ok data |}.

(** Two worlds to run the module in: an empty disk, and a disk whose key
    file exists but cannot be read. *)
Definition sample_world : world :=
  mkWorld ∅ ∅ 0 "2018-03-01_12-00-00_000000" [].

Definition locked_key_path : string := "/var/golem/keys/golem_private_key.peer".

Definition locked_world : world :=
  mkWorld {[ locked_key_path := mkNode (repeat Byte.x01 32) (Some EACCES) ]}
          {[ "/var/golem/keys"%string ]} 0 "2018-03-01_12-00-00_000000" [].

(** The sample collaborators with a decoder that turns any key of length
    128 into the 64 bytes of the sample public key. *)
Definition sample_externals_hex : Externals :=
  {| sha256 := sha256 (Externals := sample_externals);
     sha256_len := sha256_len (Externals := sample_externals);
     mk_privkey := mk_privkey (Externals := sample_externals);
     mk_privkey_len := mk_privkey_len (Externals := sample_externals);
     privtopub := privtopub (Externals := sample_externals);
     privtopub_len := privtopub_len (Externals := sample_externals);
     ecdsa_verify := ecdsa_verify (Externals := sample_externals);
     randrange := randrange (Externals := sample_externals);
     randrange_range := randrange_range (Externals := sample_externals);
     decode_hex := fun k =>
       if pylen k =? 128 then Ok (repeat Byte.x02 64)
       else Raise (mkExn ValueError "non-hexadecimal number found");
     get_local_datadir := get_local_datadir (Externals := sample_externals);
     PRIVATE_KEY := PRIVATE_KEY (Externals := sample_externals);
     str_float := str_float (Externals := sample_externals);
     math_log2 := math_log2 (Externals := sample_externals);
     float_rsub := float_rsub (Externals := sample_externals) |}.

(** A disk whose key file has one byte only. *)
Definition short_key_world : world :=
  mkWorld {[ locked_key_path := mkNode [Byte.x07] None ]}
          {[ "/var/golem/keys"%string ]} 0 "2018-03-01_12-00-00_000000" [].

(** * Properties *)

(** ** The helpers on sample values *)

Example str_int_example : str_int (10 ^ 17 - 1) = "99999999999999999"%string /\
                          str_int (-5) = "-5"%string /\ str_int 0 = "0"%string.
Proof. repeat split; vm_compute; reflexivity. Qed.

Example int_from_bytes_big_example :
  int_from_bytes_big [Byte.x01; Byte.x00; Byte.xff] = 65791.
Proof. reflexivity. Qed.

Example os_path_split_examples :
  os_path_split "/var/golem/keys/key.peer" = ("/var/golem/keys", "key.peer")%string /\
  os_path_split "/a/b//c.d.e" = ("/a/b", "c.d.e")%string /\
  os_path_split "//x" = ("//", "x")%string /\
  os_path_split "x" = ("", "x")%string /\
  os_path_split "a/b/" = ("a/b", "")%string.
Proof. repeat split; reflexivity. Qed.

Example os_path_join_examples :
  os_path_join "/var/golem" "keys" = "/var/golem/keys"%string /\
  os_path_join "/var/golem/" "keys" = "/var/golem/keys"%string /\
  os_path_join "" "keys" = "keys"%string /\
  os_path_join "/var" "/etc" = "/etc"%string.
Proof. repeat split; reflexivity. Qed.

Example backup_path_example :
  backup_path "/var/golem/keys/golem_private_key.peer" "2018-03-01_12-00-00_000000"
  = "/var/golem/keys/golem_private_key_peer_2018-03-01_12-00-00_000000.bak"%string.
Proof. reflexivity. Qed.

Example float_examples :
  float_of_int (10 ^ 17 - 2) = float_of_int (10 ^ 17) /\
  get_random_float_of 2 = Ok (S754_finite false 7205759403792794 (-56)) /\
  get_random_float_of (10 ^ 16 - 1) = Ok (S754_finite false 9007199254740990 (-53)).
Proof. repeat split; vm_compute; reflexivity. Qed.

(** ** Decimal representation and floats *)

Lemma of_uint_acc_lower (l : Decimal.uint) (acc : positive) :
  Zpos acc * 10 ^ Z.of_nat (Decimal.nb_digits l) <= Zpos (Pos.of_uint_acc l acc).
Proof.
  revert acc. induction l as [|l IH|l IH|l IH|l IH|l IH|l IH|l IH|l IH|l IH|l IH];
    intros acc; cbn [Pos.of_uint_acc Decimal.nb_digits];
    [ rewrite Z.pow_0_r; lia | .. ];
    (rewrite Nat2Z.inj_succ, Z.pow_succ_r by lia;
     eapply Z.le_trans; [|apply IH];
     apply Z.le_trans with (Zpos (10 * acc) * 10 ^ Z.of_nat (Decimal.nb_digits l));
     [ lia | apply Z.mul_le_mono_nonneg_r; [ apply Z.pow_nonneg; lia | lia ] ]).
Qed.

Lemma string_of_uint_length (d : Decimal.uint) :
  String.length (NilEmpty.string_of_uint d) = Decimal.nb_digits d.
Proof. induction d; simpl; congruence. Qed.

Lemma of_uint_acc_upper (l : Decimal.uint) (acc : positive) :
  Zpos (Pos.of_uint_acc l acc) < (Zpos acc + 1) * 10 ^ Z.of_nat (Decimal.nb_digits l).
Proof.
  revert acc. induction l as [|l IH|l IH|l IH|l IH|l IH|l IH|l IH|l IH|l IH|l IH];
    intros acc; cbn [Pos.of_uint_acc Decimal.nb_digits];
    [ rewrite Z.pow_0_r; lia | .. ];
    (rewrite Nat2Z.inj_succ, Z.pow_succ_r by lia;
     eapply Z.lt_le_trans; [apply IH|];
     apply Z.le_trans with (Zpos (10 * acc + 10) * 10 ^ Z.of_nat (Decimal.nb_digits l));
     [ apply Z.mul_le_mono_nonneg_r; [ apply Z.pow_nonneg; lia | lia ] | lia ]).
Qed.

(** A positive number lies between the powers of ten that its number of
    decimal digits gives. *)
Lemma to_uint_value (p : positive) :
  exists k : nat,
    Decimal.nb_digits (Pos.to_uint p) = S k /\
    10 ^ Z.of_nat k <= Zpos p < 10 ^ Z.of_nat (S k).
Proof.
  pose proof (Unsigned.of_to p) as Hof.
  pose proof (Unsigned.to_of (Pos.to_uint p)) as Hnorm.
  rewrite Hof in Hnorm. simpl in Hnorm.
  pose proof (Unsigned.to_uint_nonzero p) as Hnz.
  pose proof (Unsigned.to_uint_nonnil p) as Hnn.
  assert (Hacc : forall l c, (Zpos c <= 9) -> Pos.of_uint_acc l c = p ->
            10 ^ Z.of_nat (Decimal.nb_digits l) <= Zpos p
              < 10 ^ Z.of_nat (S (Decimal.nb_digits l))).
  { intros l c Hc E.
    pose proof (of_uint_acc_lower l c) as L.
    pose proof (of_uint_acc_upper l c) as U. rewrite E in L, U.
    rewrite Nat2Z.inj_succ, Z.pow_succ_r by lia.
    assert (0 < 10 ^ Z.of_nat (Decimal.nb_digits l)) by (apply Z.pow_pos_nonneg; lia).
    split; nia. }
  destruct (Pos.to_uint p) as [|l|l|l|l|l|l|l|l|l|l] eqn:E;
    cbn [Decimal.nb_digits]; cbn [Pos.of_uint] in Hof;
    try (injection Hof as Hof; exists (Decimal.nb_digits l);
         split; [reflexivity | eapply Hacc; [|exact Hof]; lia]).
  - congruence.
  - exfalso. unfold Decimal.unorm in Hnorm. cbn [Decimal.nzhead] in Hnorm.
    pose proof (nb_digits_nzhead l) as Hl.
    destruct (Decimal.nzhead l) eqn:El; [apply Hnz; exact Hnorm | ..];
      rewrite <- Hnorm in Hl; cbn [Decimal.nb_digits] in Hl; lia.
Qed.

(** [len(str(r))] is the number of decimal digits of a positive [r]. *)
Lemma str_int_digits (r : Z) :
  0 < r ->
  1 <= slen (str_int r) /\
  10 ^ (slen (str_int r) - 1) <= r < 10 ^ slen (str_int r).
Proof.
  intros Hr. destruct r as [|p|p]; try lia.
  unfold slen, str_int. cbn [Z.to_int NilZero.string_of_int].
  destruct (to_uint_value p) as (k & Hk & Hv).
  unfold NilZero.string_of_uint.
  destruct (Pos.to_uint p) eqn:E; try discriminate;
    rewrite string_of_uint_length, Hk;
    (split; [lia|]);
    replace (Z.of_nat (S k) - 1) with (Z.of_nat k) by lia; exact Hv.
Qed.

Lemma str_int_length (r : Z) :
  0 < r < 10 ^ 19 -> 1 <= slen (str_int r) <= 19.
Proof.
  intros Hr. destruct (str_int_digits r ltac:(lia)) as (H1 & Hlo & _).
  split; [exact H1|].
  assert (10 ^ (slen (str_int r) - 1) < 10 ^ 19) as Hlt by lia.
  apply Z.pow_lt_mono_r_iff in Hlt; lia.
Qed.

(** Over exact arithmetic the quotient of [get_random_float] is strictly
    between 0 and 1: its numerator is positive and below its denominator. *)
Lemma exact_quotient_in_unit_interval (r : Z) :
  2 <= r -> 0 < r - 1 < 10 ^ slen (str_int r).
Proof.
  intros Hr. destruct (str_int_digits r ltac:(lia)) as (_ & _ & Hhi). lia.
Qed.

Lemma float_of_pow10 (k : nat) :
  (1 <= k <= 19)%nat ->
  exists m e, float_of_int (10 ^ Z.of_nat k) = Ok (S754_finite false m e).
Proof.
  intros [Hlo Hhi].
  destruct k as [|k]; [lia|].
  do 19 (destruct k as [|k]; [vm_compute; eauto|]). lia.
Qed.

Lemma float_of_int_small (n : Z) :
  Z.abs n < 2 ^ 64 -> float_of_int n = Ok (binary_normalize prec emax n 0 false).
Proof.
  intros H. unfold float_of_int.
  destruct (Z.ltb_spec (Z.abs n) (2 ^ 1024 - 2 ^ 970)) as [_|Hge]; [reflexivity|].
  exfalso. assert (2 ^ 64 < 2 ^ 1024 - 2 ^ 970) by (vm_compute; reflexivity). lia.
Qed.

(** The float expression of [get_random_float] raises on no draw that
    [get_random(min_value=2)] can return. *)
Lemma get_random_float_of_total (r : Z) :
  2 <= r < maxsize -> exists x, get_random_float_of r = Ok x.
Proof.
  intros Hr. unfold maxsize in Hr.
  assert (2 ^ 63 < 10 ^ 19) by (vm_compute; reflexivity).
  assert (2 ^ 63 < 2 ^ 64) by (vm_compute; reflexivity).
  unfold get_random_float_of.
  rewrite float_of_int_small by lia. cbn [rbind].
  pose proof (str_int_length r ltac:(lia)) as Hlen.
  unfold slen in *.
  destruct (float_of_pow10 (String.length (str_int r)) ltac:(lia)) as (m & e & E).
  rewrite E. cbn [rbind float_div]. eauto.
Qed.

(** ** Byte strings as integers *)

Lemma fold_from_bytes_bound (b : bytes) (acc : Z) :
  0 <= acc ->
  0 <= fold_left (fun a x => a * 256 + Z.of_N (Byte.to_N x)) b acc
    < (acc + 1) * 256 ^ Z.of_nat (List.length b).
Proof.
  revert acc. induction b as [|x b IH]; intros acc Hacc.
  - cbn. lia.
  - cbn [fold_left List.length]. rewrite Nat2Z.inj_succ, Z.pow_succ_r by lia.
    pose proof (Strings.Byte.to_N_bounded x) as Hx.
    specialize (IH (acc * 256 + Z.of_N (Byte.to_N x)) ltac:(lia)).
    assert (0 < 256 ^ Z.of_nat (List.length b)) by (apply Z.pow_pos_nonneg; lia).
    split; [lia|]. eapply Z.lt_le_trans; [apply IH|]. nia.
Qed.

Lemma int_from_bytes_big_bound (b : bytes) :
  0 <= int_from_bytes_big b < 256 ^ Z.of_nat (List.length b).
Proof.
  pose proof (fold_from_bytes_bound b 0 ltac:(lia)) as H.
  unfold int_from_bytes_big. lia.
Qed.

(** ** Strings and paths *)

Section Paths.

Local Open Scope string_scope.
Local Arguments String.append !_ _ / : simpl nomatch.

Lemma str_length_app (a b : string) :
  String.length (a ++ b) = (String.length a + String.length b)%nat.
Proof. induction a as [|x a IH]; cbn; [reflexivity | rewrite IH; reflexivity]. Qed.

Lemma str_app_assoc (a b c : string) : (a ++ b) ++ c = a ++ (b ++ c).
Proof. induction a as [|x a IH]; cbn; [reflexivity | rewrite IH; reflexivity]. Qed.

Lemma str_app_nil_r (a : string) : a ++ "" = a.
Proof. induction a as [|x a IH]; cbn; [reflexivity | rewrite IH; reflexivity]. Qed.

Lemma str_app_inv_head (a b b' : string) : a ++ b = a ++ b' -> b = b'.
Proof. induction a as [|x a IH]; cbn; [auto | intros H; injection H as H; auto]. Qed.

Lemma str_take_drop (n : nat) (s : string) : str_take n s ++ str_drop n s = s.
Proof.
  revert s. induction n as [|n IH]; intros [|a r]; cbn; try reflexivity.
  rewrite IH. reflexivity.
Qed.

Lemma str_take_app (h t : string) : str_take (String.length h) (h ++ t) = h.
Proof.
  induction h as [|a h IH]; cbn; [destruct t; reflexivity | rewrite IH; reflexivity].
Qed.

Lemma str_drop_app (h t : string) : str_drop (String.length h) (h ++ t) = t.
Proof. induction h as [|a h IH]; cbn; [reflexivity | exact IH]. Qed.

Lemma rfind_succ_none (c : ascii) (s : string) :
  has_char c s = false -> rfind_succ c s = 0%nat.
Proof.
  induction s as [|a r IH]; cbn; [reflexivity|].
  intros H. apply orb_false_iff in H as [Ha Hr].
  rewrite (IH Hr), Ha. reflexivity.
Qed.

Lemma rfind_succ_last (c : ascii) (h t : string) :
  has_char c t = false ->
  rfind_succ c (h ++ String c t) = S (String.length h).
Proof.
  intros Ht. induction h as [|a h IH]; cbn.
  - rewrite (rfind_succ_none c t Ht), Ascii.eqb_refl. reflexivity.
  - rewrite IH. reflexivity.
Qed.

Lemma last_char_decomp (c : ascii) (s : string) :
  has_char c s = false \/
  exists h t, s = h ++ String c t /\ has_char c t = false.
Proof.
  induction s as [|a r IH]; [left; reflexivity|].
  destruct IH as [Hr | (h & t & -> & Ht)].
  - destruct (Ascii.eqb_spec a c) as [->|Hne].
    + right. exists "", r. auto.
    + left. cbn. rewrite Hr. apply Ascii.eqb_neq in Hne. rewrite Hne. reflexivity.
  - right. exists (String a h), t. auto.
Qed.

Lemma rstrip_all (c : ascii) (s : string) :
  all_char c s = true -> rstrip c s = "".
Proof.
  induction s as [|a r IH]; cbn; [reflexivity|].
  intros H. apply andb_true_iff in H as [Ha Hr]. rewrite (IH Hr), Ha. reflexivity.
Qed.

Lemma rstrip_decomp (c : ascii) (s : string) :
  exists t, s = rstrip c s ++ t /\ all_char c t = true.
Proof.
  induction s as [|a r (t & Hr & Ht)]; [exists ""; auto|].
  cbn [rstrip]. destruct (rstrip c r) as [|b r'] eqn:E.
  - cbn in Hr. subst t. destruct (Ascii.eqb a c) eqn:Ea.
    + exists (String a r). cbn. rewrite Ea, Ht. auto.
    + exists r. auto.
  - exists t. cbn. cbn in Hr. rewrite <- Hr. auto.
Qed.

Lemma rstrip_endswith (c : ascii) (s : string) :
  endswith c (rstrip c s) = false.
Proof.
  induction s as [|a r IH]; [reflexivity|].
  cbn [rstrip]. destruct (rstrip c r) as [|b r'] eqn:E.
  - destruct (Ascii.eqb a c) eqn:Ea; cbn; [reflexivity | exact Ea].
  - exact IH.
Qed.

Lemma rstrip_nonempty (c : ascii) (s : string) :
  all_char c s = false -> rstrip c s <> "".
Proof.
  induction s as [|a r IH]; cbn; [discriminate|].
  intros H. destruct (rstrip c r) as [|b r'] eqn:E; [|discriminate].
  destruct (Ascii.eqb a c) eqn:Ea; [|discriminate].
  cbn in H. exfalso. apply (IH H). reflexivity.
Qed.

Lemma rstrip_id (c : ascii) (s : string) :
  endswith c s = false -> rstrip c s = s.
Proof.
  induction s as [|a r IH]; [reflexivity|].
  destruct r as [|b r'].
  - cbn. intros ->. reflexivity.
  - intros H. change (endswith c (String b r') = false) in H.
    cbn [rstrip] in *. rewrite (IH H). reflexivity.
Qed.

Lemma rstrip_app_all (c : ascii) (h t : string) :
  all_char c t = true -> rstrip c (h ++ t) = rstrip c h.
Proof.
  intros Ht. induction h as [|a h IH]; cbn.
  - apply rstrip_all. exact Ht.
  - rewrite IH. reflexivity.
Qed.

Lemma all_char_app (c : ascii) (a b : string) :
  all_char c (a ++ b) = all_char c a && all_char c b.
Proof.
  induction a as [|x a IH]; cbn; [reflexivity|].
  rewrite IH. apply andb_assoc.
Qed.

Lemma endswith_app_char (c x : ascii) (h : string) :
  endswith c (h ++ String x "") = Ascii.eqb x c.
Proof.
  induction h as [|a h IH]; [reflexivity|].
  cbn [append]. destruct (h ++ String x "") eqn:E.
  - destruct h; discriminate.
  - rewrite <- IH. reflexivity.
Qed.

Lemma endswith_all_char (c : ascii) (h : string) :
  h <> "" -> endswith c h = false -> all_char c h = false.
Proof.
  induction h as [|a h IH]; [congruence|]. intros _.
  destruct h as [|b h'].
  - cbn. intros ->. reflexivity.
  - intros H. change (endswith c (String b h') = false) in H.
    cbn [all_char] in *. rewrite (IH ltac:(discriminate) H). apply andb_false_r.
Qed.

Lemma str_take_0 (s : string) : str_take 0 s = "".
Proof. destruct s; reflexivity. Qed.

Lemma str_drop_0 (s : string) : str_drop 0 s = s.
Proof. destruct s; reflexivity. Qed.

Lemma str_take_last (c : ascii) (h t : string) :
  str_take (S (String.length h)) (h ++ String c t) = h ++ String c "".
Proof.
  induction h as [|a h IH]; cbn; [reflexivity|].
  cbn in IH. rewrite IH. reflexivity.
Qed.

Lemma str_drop_last (c : ascii) (h t : string) :
  str_drop (S (String.length h)) (h ++ String c t) = t.
Proof.
  induction h as [|a h IH]; cbn; [apply str_drop_0 | exact IH].
Qed.

Lemma str_nonempty_app_char (c : ascii) (h t : string) :
  str_nonempty (h ++ String c t) = true.
Proof. destruct h; reflexivity. Qed.

Lemma str_nonempty_true (s : string) : s <> "" -> str_nonempty s = true.
Proof. destruct s; [congruence | reflexivity]. Qed.

Lemma str_replace_length (old new : ascii) (s : string) :
  String.length (str_replace old new s) = String.length s.
Proof. induction s as [|a r IH]; cbn; [reflexivity | rewrite IH; reflexivity]. Qed.

(** The three shapes of a path under [os.path.split]: no slash at all; a
    head made of slashes only; a head whose trailing slashes are stripped. *)
Lemma os_path_split_cases (p : string) :
  (has_char slash p = false /\ os_path_split p = ("", p)) \/
  (exists h t, p = h ++ t /\ has_char slash t = false /\
               endswith slash h = true /\ os_path_split p = (h, t)) \/
  (exists h sl t, p = h ++ sl ++ t /\ has_char slash t = false /\
                  all_char slash sl = true /\ h <> "" /\
                  endswith slash h = false /\ os_path_split p = (h, t)).
Proof.
  destruct (last_char_decomp slash p) as [Hno | (h0 & t & -> & Ht)].
  - left. split; [exact Hno|]. unfold os_path_split.
    rewrite (rfind_succ_none _ _ Hno), str_take_0, str_drop_0. reflexivity.
  - right. unfold os_path_split.
    rewrite (rfind_succ_last _ _ _ Ht), str_take_last, str_drop_last.
    rewrite str_nonempty_app_char. cbn [andb].
    destruct (all_char slash (h0 ++ String slash "")) eqn:Hall; cbn [negb].
    + left. exists (h0 ++ String slash ""), t.
      rewrite str_app_assoc. repeat split; try assumption; try reflexivity.
      rewrite endswith_app_char. reflexivity.
    + right. destruct (rstrip_decomp slash (h0 ++ String slash "")) as (sl & Hd & Hsl).
      exists (rstrip slash (h0 ++ String slash "")), sl, t.
      split; [|repeat split; try assumption].
      * rewrite <- str_app_assoc, <- Hd, str_app_assoc. reflexivity.
      * apply rstrip_nonempty. exact Hall.
      * apply rstrip_endswith.
Qed.

(** The file name [backup_file] builds from the last component of the path
    and the time stamp. *)
Lemma backup_name_startswith (t date : string) :
  has_char slash t = false ->
  startswith slash (str_replace "." "_" t ++ "_" ++ date ++ ".bak") = false.
Proof.
  destruct t as [|a r]; [reflexivity|]. cbn.
  intros H. apply orb_false_iff in H as [Ha _].
  destruct (Ascii.eqb a "."); [reflexivity | exact Ha].
Qed.

Lemma backup_name_length (t date : string) :
  String.length (str_replace "." "_" t ++ "_" ++ date ++ ".bak")
  = (String.length t + String.length date + 5)%nat.
Proof.
  rewrite !str_length_app, str_replace_length. cbn. lia.
Qed.

Lemma os_path_join_plain (a b : string) :
  startswith slash b = false -> a <> "" -> endswith slash a = false ->
  os_path_join a b = a ++ "/" ++ b.
Proof.
  intros Hb Ha Hs. unfold os_path_join.
  rewrite Hb, (str_nonempty_true _ Ha), Hs. reflexivity.
Qed.

Lemma os_path_join_slash (a b : string) :
  startswith slash b = false -> endswith slash a = true ->
  os_path_join a b = a ++ b.
Proof.
  intros Hb Hs. unfold os_path_join. rewrite Hb, Hs, orb_true_r. reflexivity.
Qed.

Lemma os_path_join_empty (b : string) :
  startswith slash b = false -> os_path_join "" b = b.
Proof. intros Hb. unfold os_path_join. rewrite Hb. reflexivity. Qed.

(** The backup never has the path of the file it backs up. *)
Lemma backup_path_neq (p date : string) : backup_path p date <> p.
Proof.
  unfold backup_path.
  destruct (os_path_split_cases p)
    as [[Ht ->] | [(h & t & -> & Ht & Hh & ->)
                  | (h & sl & t & -> & Ht & Hsl & Hne & Hh & ->)]];
    pose proof (backup_name_startswith _ date Ht) as Hst;
    match type of Ht with
    | has_char _ ?t = false => pose proof (backup_name_length t date) as Hlen
    end.
  - rewrite os_path_join_empty by exact Hst.
    intros E. apply (f_equal String.length) in E. lia.
  - rewrite os_path_join_slash by assumption.
    intros E. apply str_app_inv_head in E.
    apply (f_equal String.length) in E. lia.
  - rewrite os_path_join_plain by assumption.
    intros E. apply str_app_inv_head in E.
    destruct sl as [|s1 sl]; cbn in E.
    + rewrite <- E in Ht. cbn in Ht. discriminate.
    + injection E as _ E. destruct sl as [|s2 sl].
      * assert (E' : str_replace "." "_" t ++ "_" ++ date ++ ".bak" = t)
          by exact E.
        apply (f_equal String.length) in E'. lia.
      * cbn in Hsl. apply andb_true_iff in Hsl as [_ Hsl].
        apply andb_true_iff in Hsl as [Hs2 _].
        assert (E' : str_replace "." "_" t ++ "_" ++ date ++ ".bak"
                     = String s2 (sl ++ t)) by exact E.
        rewrite E' in Hst. cbn in Hst. congruence.
Qed.


End Paths.

Section Properties.

Context `{Ext : Externals}.

Lemma count_max_hash_pow (d : Z) :
  d <= 255 -> _count_max_hash d = Ok (2 ^ (256 - d)).
Proof.
  intros Hd. unfold _count_max_hash, py_lshift.
  destruct (Z.ltb_spec (256 - d - 1) 0); [lia|].
  f_equal. rewrite Z.shiftl_mul_pow2 by lia.
  rewrite <- Z.pow_succ_r by lia. f_equal. lia.
Qed.

Lemma is_pubkey_difficult_bytes (k : bytes) (d : Z) :
  d <= 255 -> is_pubkey_difficult (KBytes k) d = Ok (hash_as_int k <? 2 ^ (256 - d)).
Proof.
  intros Hd. unfold is_pubkey_difficult. simpl.
  rewrite count_max_hash_pow by assumption. reflexivity.
Qed.

(** C1: for a difficulty in [0,255], [is_pubkey_difficult] answers true
    exactly when the big-endian value of SHA-256 of the key is below
    [2^(256-d)], for a key given as raw bytes and for a key given as a hex
    string, which is decoded first ([raw] is the key as bytes). *)
Theorem is_pubkey_difficult_spec (d : Z) (k : pykey) (raw : bytes) :
  0 <= d <= 255 ->
  match k with
  | KBytes b => Ok b
  | KStr _ => decode_hex k
  end = Ok raw ->
  is_pubkey_difficult k d = Ok (hash_as_int raw <? 2 ^ (256 - d)) /\
  (is_pubkey_difficult k d = Ok true <-> hash_as_int raw < 2 ^ (256 - d)).
Proof.
  intros Hd Hk.
  assert (E : is_pubkey_difficult k d = Ok (hash_as_int raw <? 2 ^ (256 - d))).
  { destruct k as [b|s].
    - inversion Hk; subst. apply is_pubkey_difficult_bytes. lia.
    - unfold is_pubkey_difficult. rewrite Hk. simpl.
      rewrite count_max_hash_pow by lia. reflexivity. }
  split; [exact E|]. rewrite E. split.
  - intros H. inversion H as [H']. apply Z.ltb_lt. exact H'.
  - intros H. f_equal. apply Z.ltb_lt. exact H.
Qed.

(** *** get_random *)

Lemma get_random_invalid (min_value max_value : Z) (w : world) :
  max_value < min_value ->
  get_random min_value (Some max_value) w =
    Done (Raise (mkExn ArithmeticError
                   "max_value should be greater than min_value")) w.
Proof.
  intros H. unfold get_random. rewrite Z.gtb_ltb.
  destruct (Z.ltb_spec max_value min_value); [reflexivity | lia].
Qed.

Lemma get_random_equal (min_value : Z) (w : world) :
  get_random min_value (Some min_value) w = Done (Ok min_value) w.
Proof.
  unfold get_random. rewrite Z.gtb_ltb, Z.ltb_irrefl, Z.eqb_refl. reflexivity.
Qed.

Lemma get_random_draw (min_value max_value : Z) (w : world) :
  min_value < max_value ->
  get_random min_value (Some max_value) w =
    Done (Ok (randrange (draws w) min_value max_value))
         (set_draws (S (draws w)) w).
Proof.
  intros H. unfold get_random. rewrite Z.gtb_ltb.
  destruct (Z.ltb_spec max_value min_value); [lia|].
  destruct (Z.eqb_spec min_value max_value); [lia|]. reflexivity.
Qed.

(** What holds of [get_random] on every input: it raises exactly when
    [min_value > max_value], returns [min_value] without a draw when the
    bounds are equal, and otherwise consumes one draw and returns a value
    that is at least [min_value] and strictly below [max_value]. *)
Lemma get_random_cases (min_value max_value : Z) (w : world) :
  (max_value < min_value <->
     exists e, get_random min_value (Some max_value) w = Done (Raise e) w) /\
  (min_value = max_value ->
     get_random min_value (Some max_value) w = Done (Ok min_value) w) /\
  (min_value < max_value ->
     exists r, get_random min_value (Some max_value) w =
                 Done (Ok r) (set_draws (S (draws w)) w) /\
               min_value <= r < max_value).
Proof.
  split; [split|split].
  - intros H. eexists. apply get_random_invalid. exact H.
  - intros [e He].
    destruct (Z.lt_trichotomy max_value min_value) as [H|[H|H]]; [exact H| |].
    + subst. rewrite get_random_equal in He. discriminate.
    + rewrite get_random_draw in He by exact H. discriminate.
  - intros ->. apply get_random_equal.
  - intros H. eexists. split; [apply get_random_draw; exact H|].
    apply randrange_range. exact H.
Qed.

(** C7: [get_random(0, 1)] returns 0 whatever the generator does, and more
    generally [get_random] never returns [max_value] when
    [min_value < max_value], although it returns it when the bounds are equal:
    the upper end of the documented range [<min_value, max_value>] is left
    out. *)
Theorem get_random_0_1 (w : world) :
  get_random 0 (Some 1) w = Done (Ok 0) (set_draws (S (draws w)) w) /\
  get_random 1 (Some 1) w = Done (Ok 1) w /\
  (forall min_value max_value r w',
     min_value < max_value ->
     get_random min_value (Some max_value) w = Done (Ok r) w' ->
     min_value <= r < max_value).
Proof.
  split; [|split].
  - rewrite get_random_draw by lia.
    pose proof (randrange_range (draws w) 0 1 ltac:(lia)) as H.
    replace (randrange (draws w) 0 1) with 0 by lia. reflexivity.
  - apply get_random_equal.
  - intros min_value max_value r w' Hlt H.
    rewrite get_random_draw in H by exact Hlt. injection H as <- _.
    apply randrange_range. exact Hlt.
Qed.

(** *** get_random_float *)

Lemma get_random_float_draw (w : world) :
  get_random_float w =
    Done (get_random_float_of (randrange (draws w) 2 maxsize))
         (set_draws (S (draws w)) w).
Proof.
  unfold get_random_float, bind.
  change (get_random 2 None w) with (get_random 2 (Some maxsize) w).
  rewrite get_random_draw by (unfold maxsize; lia).
  unfold lift. destruct (get_random_float_of _); reflexivity.
Qed.

(** C8: at the draw [r = 10^17 - 1], which [get_random(min_value=2)] can
    return, the exact quotient [(r - 1) / 10^17] is strictly between 0 and 1,
    but [float(r - 1)] rounds up to 1e17 and [get_random_float] returns
    exactly 1.0, which is not strictly below 1. *)
Theorem get_random_float_reaches_one :
  2 <= 10 ^ 17 - 1 < maxsize /\
  0 < (10 ^ 17 - 1) - 1 < 10 ^ slen (str_int (10 ^ 17 - 1)) /\
  get_random_float_of (10 ^ 17 - 1) = Ok float_one /\
  float_of_int 1 = Ok float_one /\
  SFltb float_one float_one = false /\
  forall w : world,
    randrange (draws w) 2 maxsize = 10 ^ 17 - 1 ->
    get_random_float w = Done (Ok float_one) (set_draws (S (draws w)) w).
Proof.
  split; [unfold maxsize; lia|].
  split; [apply exact_quotient_in_unit_interval; lia|].
  split; [vm_compute; reflexivity|].
  split; [vm_compute; reflexivity|].
  split; [vm_compute; reflexivity|].
  intros w Hr. rewrite get_random_float_draw, Hr.
  vm_compute get_random_float_of. reflexivity.
Qed.

(** *** get_difficulty *)

(** C10: with the empty string as [key_id], [get_difficulty] returns the
    cached difficulty of the instance, as it does when [key_id] is omitted,
    whatever [decode_hex] would do on the empty string. *)
Theorem get_difficulty_empty (self : KeysAuth) :
  get_difficulty self (Some EmptyString) = Ok (NInt (difficulty self)) /\
  get_difficulty self (Some EmptyString) = get_difficulty self None.
Proof. split; reflexivity. Qed.

(** *** verify *)

Lemma verify_ok self sig data pk w b :
  verify_try self sig data pk = Ok b ->
  verify self sig data pk w = Done (Ok b) w.
Proof. intros H. unfold verify. rewrite H. reflexivity. Qed.

Lemma verify_caught self sig data pk w e :
  verify_try self sig data pk = Raise e ->
  verify self sig data pk w =
    Done (Ok false) (set_log (log w ++ [verify_log_record e]) w).
Proof.
  intros H. unfold verify, verify_log_record. rewrite H.
  destruct (is_AssertionError e); reflexivity.
Qed.

(** C6: [verify] returns a Boolean on every signature, message and optional
    public key, and never raises: when decoding the key or the verification
    primitive raises, the exception is logged (a format error at level INFO,
    any other at level ERROR) and the result is false; otherwise the result
    is the answer of the primitive and nothing is logged. *)
Theorem verify_never_raises (self : KeysAuth) (sig data : bytes)
    (pk : option pykey) (w : world) :
  (exists b w', verify self sig data pk w = Done (Ok b) w' /\
                files w' = files w /\ draws w' = draws w) /\
  (forall e, verify_try self sig data pk = Raise e ->
     verify self sig data pk w =
       Done (Ok false) (set_log (log w ++ [verify_log_record e]) w)) /\
  (forall k e, pk = Some k -> pylen k = HEX_PUB_KEY_LEN ->
     decode_hex k = Raise e ->
     verify self sig data pk w =
       Done (Ok false) (set_log (log w ++ [verify_log_record e]) w)) /\
  (forall k e, pk = Some k -> pylen k <> HEX_PUB_KEY_LEN ->
     ecdsa_verify k sig data = Raise e ->
     verify self sig data pk w =
       Done (Ok false) (set_log (log w ++ [verify_log_record e]) w)) /\
  (forall b, verify_try self sig data pk = Ok b ->
     verify self sig data pk w = Done (Ok b) w).
Proof.
  split; [|split; [|split; [|split]]].
  - destruct (verify_try self sig data pk) as [b|e] eqn:E.
    + exists b, w. rewrite (verify_ok _ _ _ _ _ _ E). auto.
    + exists false. eexists. rewrite (verify_caught _ _ _ _ _ _ E). auto.
  - intros e E. apply verify_caught. exact E.
  - intros k e -> Hlen Hdec. apply verify_caught.
    unfold verify_try. apply Z.eqb_eq in Hlen. rewrite Hlen, Hdec. reflexivity.
  - intros k e -> Hlen Hver. apply verify_caught.
    unfold verify_try. apply Z.eqb_neq in Hlen. rewrite Hlen. exact Hver.
  - intros b E. apply verify_ok. exact E.
Qed.

(** *** The difficulty predicate on raw keys *)

Lemma hash_as_int_bound (k : bytes) : 0 <= hash_as_int k < 2 ^ 256.
Proof.
  unfold hash_as_int.
  pose proof (int_from_bytes_big_bound (sha256 k)) as H.
  rewrite sha256_len in H.
  replace (256 ^ Z.of_nat 32) with (2 ^ 256) in H by (vm_compute; reflexivity).
  exact H.
Qed.

Lemma is_pubkey_difficult_total (k : bytes) (d : Z) :
  d <= 255 -> is_pubkey_difficult (KBytes k) d = Ok (difficult_enough k d).
Proof. apply is_pubkey_difficult_bytes. Qed.

Lemma difficulty_zero_accepts (k : bytes) :
  is_pubkey_difficult (KBytes k) 0 = Ok true.
Proof.
  rewrite is_pubkey_difficult_total by lia. f_equal.
  unfold difficult_enough. apply Z.ltb_lt.
  change (256 - 0) with 256. apply hash_as_int_bound.
Qed.

(** *** _load_and_check_keys *)

Lemma load_missing (path : string) (d : Z) (w : world) :
  files w !! path = None -> path ∉ dirs w ->
  _load_and_check_keys path d w = Done (Ok None) w.
Proof.
  intros Hf Hd. unfold _load_and_check_keys, open_rb_read.
  rewrite Hf, bool_decide_false by exact Hd. reflexivity.
Qed.

Lemma load_directory (path : string) (d : Z) (w : world) :
  files w !! path = None -> path ∈ dirs w ->
  _load_and_check_keys path d w =
    Done (Raise (mkExn IsADirectoryError "Is a directory")) w.
Proof.
  intros Hf Hd. unfold _load_and_check_keys, open_rb_read.
  rewrite Hf, bool_decide_true by exact Hd. reflexivity.
Qed.

Lemma load_unreadable (path : string) (d : Z) (w : world) (n : node)
    (e : read_error) :
  files w !! path = Some n -> rd_err n = Some e ->
  _load_and_check_keys path d w = Done (Raise (exn_of_read_error e)) w.
Proof.
  intros Hf He. unfold _load_and_check_keys, open_rb_read.
  rewrite Hf, He. destruct e; reflexivity.
Qed.

Lemma load_wrong_size (path : string) (d : Z) (w : world) (n : node) :
  files w !! path = Some n -> rd_err n = None ->
  blen (data n) <> PRIV_KEY_LEN ->
  _load_and_check_keys path d w =
    Done (Ok None)
         (set_log (log w ++ [(ERROR, ("Wrong loaded private key size: "
                                        ++ str_int (blen (data n)) ++ ".")%string)]) w).
Proof.
  intros Hf He Hlen. unfold _load_and_check_keys, open_rb_read.
  rewrite Hf, He. apply Z.eqb_neq in Hlen. rewrite Hlen. reflexivity.
Qed.

Lemma load_checked (path : string) (d : Z) (w : world) (n : node) :
  files w !! path = Some n -> rd_err n = None ->
  blen (data n) = PRIV_KEY_LEN ->
  _load_and_check_keys path d w =
    match is_pubkey_difficult (KBytes (privtopub (data n))) d with
    | Ok true => Done (Ok (Some (data n, privtopub (data n)))) w
    | Ok false =>
        Done (Ok None)
             (set_log (log w ++ [(WARNING, "Loaded key is not difficult enough.")]) w)
    | Raise e => Done (Raise e) w
    end.
Proof.
  intros Hf He Hlen. unfold _load_and_check_keys, open_rb_read.
  rewrite Hf, He. apply Z.eqb_eq in Hlen. rewrite Hlen. cbn [negb].
  unfold bind, lift.
  destruct (is_pubkey_difficult (KBytes (privtopub (data n))) d) as [[|]|e];
    reflexivity.
Qed.


(** *** _generate_keys *)



Lemma advance_1 (w : world) : advance 1 w = set_draws (S (draws w)) w.
Proof. unfold advance. f_equal. lia. Qed.

Lemma generate_candidate_inv (d : Z) (w w' : world) (priv pub : bytes)
    (b : bool) :
  generate_candidate d w = Done (Ok (priv, pub, b)) w' ->
  pub = privtopub priv /\ is_pubkey_difficult (KBytes pub) d = Ok b /\
  w' = advance 1 w.
Proof.
  unfold generate_candidate, bind. rewrite get_random_float_draw.
  destruct (get_random_float_of _) as [x|e]; [|discriminate].
  unfold lift.
  destruct (is_pubkey_difficult _ d) as [b'|e] eqn:E; [|discriminate].
  unfold ret. intros H. inversion H; subst.
  rewrite advance_1. auto.
Qed.

Lemma generate_candidate_eq (d : Z) (w : world) :
  d <= 255 ->
  exists priv,
    List.length priv = 32%nat /\
    generate_candidate d w =
      Done (Ok (priv, privtopub priv, difficult_enough (privtopub priv) d))
           (advance 1 w).
Proof.
  intros Hd. unfold generate_candidate, bind. rewrite get_random_float_draw.
  destruct (get_random_float_of_total (randrange (draws w) 2 maxsize)) as [x Hx].
  { apply randrange_range. unfold maxsize. lia. }
  rewrite Hx. exists (mk_privkey (str_float x)). split; [apply mk_privkey_len|].
  unfold lift. rewrite is_pubkey_difficult_total by exact Hd.
  rewrite advance_1. reflexivity.
Qed.

Lemma generate_loop_sound (fuel : nat) (d : Z) (w w' : world)
    (priv pub : bytes) :
  generate_loop fuel d w = Done (Ok (priv, pub)) w' ->
  is_pubkey_difficult (KBytes pub) d = Ok true /\ pub = privtopub priv.
Proof.
  revert w. induction fuel as [|fuel IH]; intros w; [discriminate|].
  cbn [generate_loop]. unfold bind.
  destruct (generate_candidate d w) as [[[[priv0 pub0] [|]]|e] w0|] eqn:E;
    try discriminate.
  - unfold ret. intros H. inversion H; subst.
    apply generate_candidate_inv in E. tauto.
  - apply IH.
Qed.


Lemma generate_loop_zero (fuel : nat) (w : world) :
  exists priv,
    List.length priv = 32%nat /\
    generate_loop (S fuel) 0 w = Done (Ok (priv, privtopub priv)) (advance 1 w).
Proof.
  destruct (generate_candidate_eq 0 w ltac:(lia)) as (priv & Hlen & E).
  exists priv. split; [exact Hlen|].
  cbn [generate_loop]. unfold bind. rewrite E.
  pose proof (difficulty_zero_accepts (privtopub priv)) as H0.
  rewrite is_pubkey_difficult_total in H0 by lia. injection H0 as H1.
  rewrite H1. reflexivity.
Qed.


(** *** _save_private_key *)

Lemma save_new_file (key : bytes) (path : string) (w : world) :
  files w !! path = None -> path ∉ dirs w ->
  _save_private_key key path w =
    Done (Ok tt) (set_files (<[path := mkNode key None]> (files w)) w).
Proof.
  intros Hf Hd.
  unfold _save_private_key, backup_file, bind, os_path_exists, open_wb_write.
  rewrite Hf. rewrite (bool_decide_false (is_Some None)) by (apply is_Some_None).
  rewrite bool_decide_false by exact Hd. cbn.
  rewrite bool_decide_false by exact Hd. reflexivity.
Qed.

Lemma rename_entry_files (src dst : string) (w : world) :
  files (rename_entry src dst w) =
    match files w !! src with
    | Some n => <[dst := n]> (delete src (files w))
    | None => files w
    end.
Proof.
  unfold rename_entry.
  destruct (files w !! src); destruct (bool_decide _); reflexivity.
Qed.

Lemma rename_entry_draws (src dst : string) (w : world) :
  draws (rename_entry src dst w) = draws w.
Proof.
  unfold rename_entry.
  destruct (files w !! src); destruct (bool_decide _); reflexivity.
Qed.

Lemma rename_entry_src_gone (src dst : string) (w : world) :
  dst <> src -> src ∉ dirs (rename_entry src dst w).
Proof.
  intros Hne. unfold rename_entry.
  destruct (files w !! src); cbn [dirs set_files];
    case_bool_decide; cbn [dirs set_dirs set_files]; try assumption;
    rewrite elem_of_union, elem_of_singleton, elem_of_difference,
      elem_of_singleton; intros [E|[_ E]]; congruence.
Qed.

Lemma backup_file_moves (path : string) (w : world) :
  is_Some (files w !! path) \/ path ∈ dirs w ->
  backup_file path w =
    Done (Ok tt)
         (rename_entry path (backup_path path (now w))
            (set_log (log w ++ [(INFO, "Backing up existing private key.")]) w)).
Proof.
  intros Hex. unfold backup_file, bind, os_path_exists.
  replace (bool_decide (is_Some (files w !! path)) || bool_decide (path ∈ dirs w))
    with true; [reflexivity|].
  symmetry. apply orb_true_iff.
  destruct Hex; [left | right]; apply bool_decide_eq_true; assumption.
Qed.

Lemma save_files (key : bytes) (path : string) (w : world) :
  exists w',
    _save_private_key key path w = Done (Ok tt) w' /\
    draws w' = draws w /\
    files w' =
      <[path := mkNode key None]>
        (match files w !! path with
         | Some n => <[backup_path path (now w) := n]> (delete path (files w))
         | None => files w
         end).
Proof.
  pose proof (backup_path_neq path (now w)) as Hneq.
  destruct (decide (is_Some (files w !! path) \/ path ∈ dirs w)) as [Hex|Hex].
  - unfold _save_private_key, bind. rewrite (backup_file_moves _ _ Hex).
    unfold open_wb_write.
    rewrite bool_decide_false by (apply rename_entry_src_gone; exact Hneq).
    eexists. split; [reflexivity|]. cbn [draws files set_files].
    rewrite rename_entry_draws, rename_entry_files. split; reflexivity.
  - assert (Hnone : files w !! path = None).
    { destruct (files w !! path) eqn:E; [|reflexivity].
      exfalso. apply Hex. left. eauto. }
    assert (Hdir : path ∉ dirs w) by (intros H; apply Hex; right; exact H).
    rewrite (save_new_file _ _ _ Hnone Hdir), Hnone.
    eexists. split; [reflexivity|]. split; reflexivity.
Qed.


Example save_over_existing_example :
  let old := mkNode [Byte.x07] None in
  let w := set_files {[ "/k/key.peer"%string := old ]} sample_world in
  exists w',
    _save_private_key [Byte.x09] "/k/key.peer" w = Done (Ok tt) w' /\
    files w' !! "/k/key.peer"%string = Some (mkNode [Byte.x09] None) /\
    files w' !! "/k/key_peer_2018-03-01_12-00-00_000000.bak"%string = Some old /\
    size (files w') = 2%nat.
Proof. eexists. repeat split; vm_compute; reflexivity. Qed.

(** *** KeysAuth.__init__ *)

Lemma encode_hex_length (b : bytes) :
  String.length (encode_hex b) = (2 * List.length b)%nat.
Proof. induction b as [|x b IH]; cbn; [reflexivity | rewrite IH; lia]. Qed.

Lemma get_or_create_keys_dir_eq (datadir : string) (w : world) :
  _get_or_create_keys_dir datadir w =
    Done (Ok (keys_dir_of datadir)) (with_keys_dir datadir w).
Proof.
  unfold _get_or_create_keys_dir, with_keys_dir, bind, os_path_isdir.
  fold (keys_dir_of datadir).
  destruct (bool_decide (keys_dir_of datadir ∈ dirs w)); reflexivity.
Qed.

Lemma with_keys_dir_files (datadir : string) (w : world) :
  files (with_keys_dir datadir w) = files w.
Proof. unfold with_keys_dir. destruct (bool_decide _); reflexivity. Qed.

Lemma with_keys_dir_draws (datadir : string) (w : world) :
  draws (with_keys_dir datadir w) = draws w.
Proof. unfold with_keys_dir. destruct (bool_decide _); reflexivity. Qed.

Lemma with_keys_dir_log (datadir : string) (w : world) :
  log (with_keys_dir datadir w) = log w.
Proof. unfold with_keys_dir. destruct (bool_decide _); reflexivity. Qed.

Lemma with_keys_dir_dirs (datadir : string) (w : world) (q : string) :
  q ∈ dirs (with_keys_dir datadir w) <-> q = keys_dir_of datadir \/ q ∈ dirs w.
Proof.
  unfold with_keys_dir. case_bool_decide as Hin; cbn [dirs set_dirs].
  - split; [auto | intros [->|H]; assumption].
  - rewrite elem_of_union, elem_of_singleton. reflexivity.
Qed.

Lemma with_keys_dir_id (datadir : string) (w : world) :
  keys_dir_of datadir ∈ dirs w -> with_keys_dir datadir w = w.
Proof. intros H. unfold with_keys_dir. rewrite bool_decide_true by exact H. reflexivity. Qed.

Lemma init_unfold (fuel : nat) (datadir name : string) (d : Z) (w : world) :
  __init__ fuel datadir name d w =
    let path := os_path_join (keys_dir_of datadir) name in
    let made priv pub :=
      mkKeysAuth d priv path pub (encode_hex pub) (ECCx priv) in
    match _load_and_check_keys path d (with_keys_dir datadir w) with
    | Done (Ok (Some (priv, pub))) w1 => Done (Ok (made priv pub)) w1
    | Done (Ok None) w1 =>
        match _generate_keys fuel d w1 with
        | Done (Ok (priv, pub)) w2 =>
            match _save_private_key priv path w2 with
            | Done (Ok _) w3 => Done (Ok (made priv pub)) w3
            | Done (Raise e) w3 => Done (Raise e) w3
            | OutOfFuel => OutOfFuel
            end
        | Done (Raise e) w2 => Done (Raise e) w2
        | OutOfFuel => OutOfFuel
        end
    | Done (Raise e) w1 => Done (Raise e) w1
    | OutOfFuel => OutOfFuel
    end.
Proof.
  unfold __init__, bind. rewrite get_or_create_keys_dir_eq. cbn zeta.
  destruct (_load_and_check_keys _ d (with_keys_dir datadir w))
    as [[[[priv pub]|]|e] w1|]; try reflexivity.
  destruct (_generate_keys fuel d w1) as [[[priv pub]|e] w2|]; try reflexivity.
  cbn [fst].
  destruct (_save_private_key priv _ w2) as [[[]|e] w3|]; reflexivity.
Qed.

Lemma load_open_raises (path : string) (d : Z) (w : world) (e : exn) :
  open_rb_read path w = Done (Raise e) w ->
  _load_and_check_keys path d w =
    match exn_cls e with
    | FileNotFoundError => Done (Ok None) w
    | _ => Done (Raise e) w
    end.
Proof. intros H. unfold _load_and_check_keys. rewrite H. reflexivity. Qed.

Lemma open_raises_with_keys_dir (path datadir : string) (w : world) (e : exn) :
  open_rb_read path w = Done (Raise e) w ->
  exn_cls e <> FileNotFoundError ->
  open_rb_read path (with_keys_dir datadir w)
    = Done (Raise e) (with_keys_dir datadir w).
Proof.
  unfold open_rb_read. rewrite with_keys_dir_files.
  destruct (files w !! path) as [n|].
  - destruct (rd_err n); intros H; inversion H; reflexivity.
  - case_bool_decide as Hin; intros H Hcls; inversion H; subst.
    + rewrite bool_decide_true; [reflexivity|].
      apply with_keys_dir_dirs. right. exact Hin.
    + exfalso. apply Hcls. reflexivity.
Qed.

(** C9: when opening or reading the key file raises, only
    [FileNotFoundError] is turned into "absent"; any other exception comes
    out of [_load_and_check_keys] and out of [__init__], which then leaves
    the files as they were, makes no random draw and logs nothing: no key is
    generated and the key file is not overwritten. *)
Theorem load_error_propagates (path : string) (d : Z) (w : world) (e : exn) :
  open_rb_read path w = Done (Raise e) w ->
  (exn_cls e = FileNotFoundError ->
     _load_and_check_keys path d w = Done (Ok None) w) /\
  (exn_cls e <> FileNotFoundError ->
     _load_and_check_keys path d w = Done (Raise e) w /\
     forall fuel datadir name,
       os_path_join (keys_dir_of datadir) name = path ->
       exists w',
         __init__ fuel datadir name d w = Done (Raise e) w' /\
         files w' = files w /\ draws w' = draws w /\ log w' = log w).
Proof.
  intros Hopen. split.
  - intros Hcls. rewrite (load_open_raises _ _ _ _ Hopen), Hcls. reflexivity.
  - intros Hcls.
    assert (Hload : forall w0, open_rb_read path w0 = Done (Raise e) w0 ->
                      _load_and_check_keys path d w0 = Done (Raise e) w0).
    { intros w0 H0. rewrite (load_open_raises _ _ _ _ H0).
      destruct (exn_cls e); try reflexivity. congruence. }
    split; [apply Hload; exact Hopen|].
    intros fuel datadir name Hpath. exists (with_keys_dir datadir w).
    rewrite init_unfold. cbn zeta. rewrite Hpath.
    rewrite Hload by (apply open_raises_with_keys_dir; assumption).
    split; [reflexivity|].
    rewrite with_keys_dir_files, with_keys_dir_draws, with_keys_dir_log. auto.
Qed.



End Properties.

(** * Further properties of the module *)

Section MoreProperties.

Context `{Ext : Externals}.

(** ** The difficulty predicate *)

Lemma testbit_above (h n i : Z) :
  0 <= h < 2 ^ n -> 0 <= n <= i -> Z.testbit h i = false.
Proof.
  intros [Hlo Hhi] Hi.
  destruct (Z.eq_dec h 0) as [->|Hne]; [apply Z.bits_0|].
  apply Z.bits_above_log2; [lia|].
  assert (Z.log2 h < n) by (apply Z.log2_lt_pow2; lia). lia.
Qed.

(** X1: for a difficulty in [0,255], a key is difficult enough exactly when
    the [d] most significant bits of its 256-bit hash are zero. *)
Theorem difficulty_leading_zero_bits (k : bytes) (d : Z) :
  0 <= d <= 255 ->
  (is_pubkey_difficult (KBytes k) d = Ok true <->
   forall i, 256 - d <= i < 256 -> Z.testbit (hash_as_int k) i = false).
Proof.
  intros Hd. pose proof (hash_as_int_bound k) as Hh.
  rewrite is_pubkey_difficult_total by lia. unfold difficult_enough.
  split.
  - intros H i Hi. injection H as H. apply Z.ltb_lt in H.
    apply (testbit_above _ (256 - d)); lia.
  - intros Hbits. f_equal. apply Z.ltb_lt.
    destruct (Z.lt_ge_cases (hash_as_int k) (2 ^ (256 - d))) as [Hlt|Hge];
      [exact Hlt|exfalso].
    assert (Hpos : 0 < hash_as_int k).
    { assert (0 < 2 ^ (256 - d)) by (apply Z.pow_pos_nonneg; lia). lia. }
    assert (256 - d <= Z.log2 (hash_as_int k))
      by (apply Z.log2_le_pow2; lia).
    assert (Z.log2 (hash_as_int k) < 256)
      by (apply Z.log2_lt_pow2; lia).
    pose proof (Z.bit_log2 _ Hpos) as Hbit.
    rewrite Hbits in Hbit by lia. discriminate.
Qed.


Lemma is_pubkey_difficult_out_of_range (k : bytes) (d : Z) :
  255 < d ->
  is_pubkey_difficult (KBytes k) d
    = Raise (mkExn ValueError "negative shift count").
Proof.
  intros Hd. unfold is_pubkey_difficult, _count_max_hash, py_lshift.
  cbn [rbind]. destruct (Z.ltb_spec (256 - d - 1) 0); [reflexivity | lia].
Qed.

(** X3: beyond 255 the difficulty predicate has no answer: the shift count
    of [_count_max_hash] is negative and [ValueError] is raised, whatever the
    key. *)
Theorem difficulty_out_of_range_raises (k : pykey) (d : Z) :
  255 < d ->
  _count_max_hash d = Raise (mkExn ValueError "negative shift count") /\
  (exists e, is_pubkey_difficult k d = Raise e) /\
  (forall b, k = KBytes b ->
     is_pubkey_difficult k d = Raise (mkExn ValueError "negative shift count")).
Proof.
  intros Hd.
  assert (Hc : _count_max_hash d = Raise (mkExn ValueError "negative shift count")).
  { unfold _count_max_hash, py_lshift.
    destruct (Z.ltb_spec (256 - d - 1) 0); [reflexivity | lia]. }
  split; [exact Hc|]. split.
  - unfold is_pubkey_difficult.
    destruct (match k with KStr _ => decode_hex k | KBytes b => Ok b end)
      as [raw|e]; cbn [rbind]; [rewrite Hc|]; eauto.
  - intros b ->. apply is_pubkey_difficult_out_of_range. exact Hd.
Qed.

(** ** sha2 *)

(** X4: [sha2] of a string is [sha2] of its encoding, and its value is a
    256-bit natural number. *)
Theorem sha2_range (seed : pykey) :
  0 <= sha2 seed < 2 ^ 256 /\
  (forall s, seed = KStr s -> sha2 seed = sha2 (KBytes (str_encode s))).
Proof.
  split.
  - destruct seed as [b|s]; [apply (hash_as_int_bound b)|].
    apply (hash_as_int_bound (str_encode s)).
  - intros s ->. reflexivity.
Qed.

(** ** get_random_float *)

(** X5: [get_random_float] never raises: it makes one draw [r] with
    [2 <= r < sys.maxsize], for which neither conversion overflows and the
    divisor is not zero, and returns a float. *)
Theorem get_random_float_total (w : world) :
  exists r x,
    2 <= r < maxsize /\
    get_random 2 None w = Done (Ok r) (advance 1 w) /\
    get_random_float_of r = Ok x /\
    get_random_float w = Done (Ok x) (advance 1 w).
Proof.
  exists (randrange (draws w) 2 maxsize).
  assert (Hr : 2 <= randrange (draws w) 2 maxsize < maxsize)
    by (apply randrange_range; unfold maxsize; lia).
  destruct (get_random_float_of_total _ Hr) as [x Hx]. exists x.
  split; [exact Hr|]. rewrite advance_1. split; [|split; [exact Hx|]].
  - change (get_random 2 None w) with (get_random 2 (Some maxsize) w).
    apply get_random_draw. unfold maxsize. lia.
  - rewrite get_random_float_draw, Hx. reflexivity.
Qed.

(** ** _load_and_check_keys *)

Lemma load_some_inv (path : string) (d : Z) (w w' : world) (priv pub : bytes) :
  _load_and_check_keys path d w = Done (Ok (Some (priv, pub))) w' ->
  w' = w /\
  exists n, files w !! path = Some n /\ rd_err n = None /\ data n = priv /\
            List.length priv = 32%nat /\ pub = privtopub priv /\
            is_pubkey_difficult (KBytes pub) d = Ok true.
Proof.
  intros H.
  destruct (files w !! path) as [n|] eqn:Hf.
  - destruct (rd_err n) as [e|] eqn:He.
    { rewrite (load_unreadable _ _ _ _ _ Hf He) in H. discriminate. }
    destruct (Z.eq_dec (blen (data n)) PRIV_KEY_LEN) as [Hlen|Hlen].
    + rewrite (load_checked _ _ _ _ Hf He Hlen) in H.
      destruct (is_pubkey_difficult (KBytes (privtopub (data n))) d)
        as [[|]|e] eqn:E; try discriminate.
      inversion H; subst. split; [reflexivity|]. exists n.
      repeat split; try assumption; try reflexivity.
      unfold blen, PRIV_KEY_LEN in Hlen. lia.
    + rewrite (load_wrong_size _ _ _ _ Hf He Hlen) in H. discriminate.
  - destruct (decide (path ∈ dirs w)) as [Hd|Hd].
    + rewrite (load_directory _ _ _ Hf Hd) in H. discriminate.
    + rewrite (load_missing _ _ _ Hf Hd) in H. discriminate.
Qed.

Lemma load_done (path : string) (d : Z) (w : world) :
  exists r w', _load_and_check_keys path d w = Done r w'.
Proof.
  destruct (files w !! path) as [n|] eqn:Hf.
  - destruct (rd_err n) as [e|] eqn:He.
    { rewrite (load_unreadable _ _ _ _ _ Hf He). eauto. }
    destruct (Z.eq_dec (blen (data n)) PRIV_KEY_LEN) as [Hlen|Hlen].
    + rewrite (load_checked _ _ _ _ Hf He Hlen).
      destruct (is_pubkey_difficult (KBytes (privtopub (data n))) d)
        as [[|]|e]; eauto.
    + rewrite (load_wrong_size _ _ _ _ Hf He Hlen). eauto.
  - destruct (decide (path ∈ dirs w)) as [Hd|Hd].
    + rewrite (load_directory _ _ _ Hf Hd). eauto.
    + rewrite (load_missing _ _ _ Hf Hd). eauto.
Qed.

Lemma load_frame (path : string) (d : Z) (w w' : world)
    (r : result (option (bytes * bytes))) :
  _load_and_check_keys path d w = Done r w' ->
  files w' = files w /\ dirs w' = dirs w /\ draws w' = draws w /\
  now w' = now w /\
  (log w' = log w \/ exists lvl msg, log w' = log w ++ [(lvl, msg)]) /\
  (forall kp, r = Ok (Some kp) -> w' = w).
Proof.
  intros H.
  assert (Hsome : forall kp, r = Ok (Some kp) -> w' = w).
  { intros [priv pub] ->. apply load_some_inv in H. tauto. }
  assert (Hcases : w' = w \/ exists lvl msg, w' = set_log (log w ++ [(lvl, msg)]) w).
  { destruct (files w !! path) as [n|] eqn:Hf.
    - destruct (rd_err n) as [e|] eqn:He.
      { rewrite (load_unreadable _ _ _ _ _ Hf He) in H. inversion H. auto. }
      destruct (Z.eq_dec (blen (data n)) PRIV_KEY_LEN) as [Hlen|Hlen].
      + rewrite (load_checked _ _ _ _ Hf He Hlen) in H.
        destruct (is_pubkey_difficult (KBytes (privtopub (data n))) d)
          as [[|]|e]; inversion H; eauto.
      + rewrite (load_wrong_size _ _ _ _ Hf He Hlen) in H. inversion H. eauto.
    - destruct (decide (path ∈ dirs w)) as [Hd|Hd].
      + rewrite (load_directory _ _ _ Hf Hd) in H. inversion H. auto.
      + rewrite (load_missing _ _ _ Hf Hd) in H. inversion H. auto. }
  destruct Hcases as [->|(lvl & msg & ->)]; cbn; repeat split; eauto.
Qed.

(** X6: [_load_and_check_keys] only reads: whatever it returns or raises,
    files, directories, random state and clock are as before, and the log
    has at most one more record, none when a key pair is returned. *)
Theorem load_is_read_only (path : string) (d : Z) (w w' : world)
    (r : result (option (bytes * bytes))) :
  _load_and_check_keys path d w = Done r w' ->
  files w' = files w /\ dirs w' = dirs w /\ draws w' = draws w /\
  now w' = now w /\
  (log w' = log w \/ exists lvl msg, log w' = log w ++ [(lvl, msg)]) /\
  (forall kp, r = Ok (Some kp) -> w' = w).
Proof. exact (load_frame path d w w' r). Qed.

(** ** _get_or_create_keys_dir *)


(** ** _generate_keys *)

Lemma generate_loop_inv (fuel : nat) (d : Z) :
  forall (w w' : world) (r : result (bytes * bytes)),
    generate_loop fuel d w = Done r w' ->
    files w' = files w /\ dirs w' = dirs w /\ now w' = now w /\
    log w' = log w /\
    forall priv pub, r = Ok (priv, pub) -> List.length priv = 32%nat.
Proof.
  induction fuel as [|fuel IH]; intros w w' r; [discriminate|].
  cbn [generate_loop]. unfold bind, generate_candidate at 1, bind.
  rewrite get_random_float_draw.
  destruct (get_random_float_of _) as [x|e].
  - unfold lift.
    destruct (is_pubkey_difficult _ d) as [[|]|e].
    + unfold ret. intros H. inversion H; subst. cbn. repeat split.
      intros priv pub H1. inversion H1. apply mk_privkey_len.
    + unfold ret. intros H. apply IH in H. cbn in H. exact H.
    + intros H. inversion H; subst. cbn. repeat split. discriminate.
  - intros H. inversion H; subst. cbn. repeat split. discriminate.
Qed.

Lemma generate_keys_inv (fuel : nat) (d : Z) (w w' : world)
    (r : result (bytes * bytes)) :
  _generate_keys fuel d w = Done r w' ->
  files w' = files w /\ dirs w' = dirs w /\ now w' = now w /\
  forall priv pub, r = Ok (priv, pub) ->
    List.length priv = 32%nat /\ pub = privtopub priv /\
    is_pubkey_difficult (KBytes pub) d = Ok true.
Proof.
  intros H. pose proof H as H'.
  unfold _generate_keys, bind, logger in H.
  apply generate_loop_inv in H. cbn in H.
  destruct H as (Hf & Hd & Hn & _ & Hlen).
  repeat split; try assumption.
  - eapply Hlen. eassumption.
  - subst r. unfold _generate_keys, bind, logger in H'.
    apply generate_loop_sound in H'. tauto.
  - subst r. unfold _generate_keys, bind, logger in H'.
    apply generate_loop_sound in H'. tauto.
Qed.

(** ** KeysAuth.__init__ *)

Lemma save_dirs (key : bytes) (path : string) (w w' : world) (r : result unit) :
  path ∉ dirs w ->
  _save_private_key key path w = Done r w' -> dirs w' = dirs w.
Proof.
  intros Hd. unfold _save_private_key, bind.
  destruct (decide (is_Some (files w !! path))) as [Hex|Hex].
  - rewrite (backup_file_moves _ _ (or_introl Hex)).
    unfold open_wb_write.
    rewrite bool_decide_false
      by (apply rename_entry_src_gone; apply backup_path_neq).
    intros H. inversion H. cbn [dirs set_files].
    unfold rename_entry. destruct (files _ !! path); cbn [dirs set_files set_log];
      rewrite bool_decide_false by exact Hd; reflexivity.
  - assert (Hnone : files w !! path = None).
    { destruct (files w !! path) eqn:E; [|reflexivity]. exfalso. apply Hex. eauto. }
    pose proof (save_new_file key path w Hnone Hd) as Hs.
    unfold _save_private_key, bind in Hs. rewrite Hs.
    intros H. inversion H. reflexivity.
Qed.

Lemma init_inv (fuel : nat) (datadir name : string) (d : Z)
    (w w' : world) (ka : KeysAuth) :
  __init__ fuel datadir name d w = Done (Ok ka) w' ->
  let path := os_path_join (keys_dir_of datadir) name in
  difficulty ka = d /\ _private_key_path ka = path /\
  List.length (_private_key ka) = 32%nat /\
  public_key ka = privtopub (_private_key ka) /\
  List.length (public_key ka) = 64%nat /\
  key_id ka = encode_hex (public_key ka) /\
  String.length (key_id ka) = 128%nat /\
  ecc ka = ECCx (_private_key ka) /\
  is_difficult ka (difficulty ka) = Ok true /\
  exists n, files w' !! path = Some n /\ data n = _private_key ka /\
            rd_err n = None.
Proof.
  intros H path. rewrite init_unfold in H. cbn zeta in H. fold path in H.
  assert (Hmade : forall priv pub wf,
            List.length priv = 32%nat -> pub = privtopub priv ->
            is_pubkey_difficult (KBytes pub) d = Ok true ->
            (exists n, files wf !! path = Some n /\ data n = priv /\ rd_err n = None) ->
            Done (Ok (mkKeysAuth d priv path pub (encode_hex pub) (ECCx priv))) wf
              = Done (Ok ka) w' ->
            difficulty ka = d /\ _private_key_path ka = path /\
            List.length (_private_key ka) = 32%nat /\
            public_key ka = privtopub (_private_key ka) /\
            List.length (public_key ka) = 64%nat /\
            key_id ka = encode_hex (public_key ka) /\
            String.length (key_id ka) = 128%nat /\
            ecc ka = ECCx (_private_key ka) /\
            is_difficult ka (difficulty ka) = Ok true /\
            exists n, files w' !! path = Some n /\ data n = _private_key ka /\
                      rd_err n = None).
  { intros priv pub wf Hlen Hpub Hdiff Hfile E. inversion E; subst ka w'.
    cbn. unfold is_difficult. cbn.
    assert (Hl : List.length pub = 64%nat)
      by (rewrite Hpub; apply privtopub_len; exact Hlen).
    repeat split; try assumption; try reflexivity.
    rewrite encode_hex_length, Hl. reflexivity. }
  destruct (_load_and_check_keys path d (with_keys_dir datadir w))
    as [[[[priv pub]|]|e] w1|] eqn:Hload; try discriminate.
  - apply load_some_inv in Hload.
    destruct Hload as (-> & n & Hf & He & Hdata & Hlen & Hpub & Hdiff).
    eapply Hmade; try eassumption. exists n. auto.
  - destruct (_generate_keys fuel d w1) as [[[priv pub]|e] w2|] eqn:Hgen;
      try discriminate.
    apply generate_keys_inv in Hgen. destruct Hgen as (_ & _ & _ & Hg).
    destruct (Hg priv pub eq_refl) as (Hlen & Hpub & Hdiff).
    destruct (save_files priv path w2) as (w3 & Hsave & _ & Hfiles).
    rewrite Hsave in H. eapply Hmade; try eassumption.
    exists (mkNode priv None). rewrite Hfiles, lookup_insert_eq. auto.
Qed.

(** X8: every instance [__init__] returns is consistent: it carries the
    requested difficulty and the key path, a 32-byte private key, the
    64-byte public key derived from it, its hexadecimal key id of 128
    characters and the context bound to the private key; its public key
    meets the difficulty; and the file at the key path holds exactly the
    private key. *)
Theorem init_invariant (fuel : nat) (datadir name : string) (d : Z)
    (w w' : world) (ka : KeysAuth) :
  __init__ fuel datadir name d w = Done (Ok ka) w' ->
  let path := os_path_join (keys_dir_of datadir) name in
  difficulty ka = d /\ _private_key_path ka = path /\
  List.length (_private_key ka) = 32%nat /\
  public_key ka = privtopub (_private_key ka) /\
  List.length (public_key ka) = 64%nat /\
  key_id ka = encode_hex (public_key ka) /\
  String.length (key_id ka) = 128%nat /\
  ecc ka = ECCx (_private_key ka) /\
  is_difficult ka (difficulty ka) = Ok true /\
  exists n, files w' !! path = Some n /\ data n = _private_key ka /\
            rd_err n = None.
Proof. exact (init_inv fuel datadir name d w w' ka). Qed.

(** X9: construction is idempotent: when [__init__] succeeds, at any
    difficulty, and the key path is not a directory, running [__init__]
    again with the same arguments on the world it leaves returns the same
    instance and changes nothing, without a single pass of the generator. *)
Theorem init_idempotent (fuel fuel' : nat) (datadir name : string) (d : Z)
    (w w' : world) (ka : KeysAuth) :
  let path := os_path_join (keys_dir_of datadir) name in
  path ∉ dirs w -> path <> keys_dir_of datadir ->
  __init__ fuel datadir name d w = Done (Ok ka) w' ->
  __init__ fuel' datadir name d w' = Done (Ok ka) w'.
Proof.
  intros path Hd Hkd H.
  pose proof (init_inv _ _ _ _ _ _ _ H) as Hinv. cbn zeta in Hinv.
  fold path in Hinv.
  destruct Hinv as (Hdk & Hpath & Hlen & Hpub & _ & Hid & _ & Hecc & Hdiff
                    & n & Hf & Hdata & Herr).
  set (w0 := with_keys_dir datadir w).
  assert (Hd0 : path ∉ dirs w0).
  { unfold w0. rewrite with_keys_dir_dirs. intros [E|E]; [exact (Hkd E) | exact (Hd E)]. }
  assert (Hk0 : keys_dir_of datadir ∈ dirs w0)
    by (unfold w0; apply with_keys_dir_dirs; left; reflexivity).
  assert (Hdirs : dirs w' = dirs w0).
  { rewrite init_unfold in H. cbn zeta in H. fold path w0 in H.
    destruct (_load_and_check_keys path d w0) as [[[[priv pub]|]|e] w1|] eqn:Hload;
      try discriminate.
    - apply load_some_inv in Hload. destruct Hload as (-> & _).
      inversion H. reflexivity.
    - apply load_frame in Hload. destruct Hload as (_ & Hd1 & _).
      destruct (_generate_keys fuel d w1) as [[[priv pub]|e] w2|] eqn:Hgen;
        try discriminate.
      apply generate_keys_inv in Hgen. destruct Hgen as (_ & Hd2 & _).
      destruct (_save_private_key priv path w2) as [[[]|e] w3|] eqn:Hsave;
        try discriminate.
      apply save_dirs in Hsave; [|rewrite Hd2, Hd1; exact Hd0].
      inversion H; subst. congruence. }
  rewrite init_unfold. cbn zeta. fold path.
  rewrite with_keys_dir_id by (rewrite Hdirs; exact Hk0).
  unfold is_difficult in Hdiff. rewrite Hdk, Hpub in Hdiff.
  rewrite (load_checked path d w' n Hf Herr)
    by (rewrite Hdata; unfold blen, PRIV_KEY_LEN; rewrite Hlen; reflexivity).
  rewrite Hdata, Hdiff. destruct ka; cbn in *. subst. reflexivity.
Qed.

(** X10: a key file that is read but rejected, for its length or for its
    difficulty, is not lost when [__init__] replaces it: the file as it was
    is found under the backup name, the key path holds the new private key,
    and every other file is as before. *)
Theorem init_rejected_key_backed_up (fuel : nat) (datadir name : string)
    (d : Z) (w w' : world) (ka : KeysAuth) (n : node) :
  let path := os_path_join (keys_dir_of datadir) name in
  let bak := backup_path path (now w) in
  files w !! path = Some n -> rd_err n = None ->
  (blen (data n) <> PRIV_KEY_LEN \/
   is_pubkey_difficult (KBytes (privtopub (data n))) d = Ok false) ->
  __init__ fuel datadir name d w = Done (Ok ka) w' ->
  files w' !! bak = Some n /\
  files w' !! path = Some (mkNode (_private_key ka) None) /\
  bak <> path /\
  forall q, q <> path -> q <> bak -> files w' !! q = files w !! q.
Proof.
  intros path bak Hf He Hrej H. subst bak.
  rewrite init_unfold in H. cbn zeta in H. fold path in H.
  set (w0 := with_keys_dir datadir w) in *.
  assert (Hf0 : files w0 !! path = Some n)
    by (unfold w0; rewrite with_keys_dir_files; exact Hf).
  destruct (_load_and_check_keys path d w0) as [[[[priv pub]|]|e] w1|] eqn:Hload;
    try discriminate.
  { exfalso. apply load_some_inv in Hload.
    destruct Hload as (_ & n' & Hf' & _ & Hdata & Hlen & Hpub & Hdiff).
    rewrite Hf0 in Hf'. injection Hf' as <-. subst priv pub.
    destruct Hrej as [Hrej|Hrej].
    - apply Hrej. unfold blen, PRIV_KEY_LEN. rewrite Hlen. reflexivity.
    - congruence. }
  apply load_frame in Hload.
  destruct Hload as (Hf1 & _ & _ & Hn1 & _).
  destruct (_generate_keys fuel d w1) as [[[priv pub]|e] w2|] eqn:Hgen;
    try discriminate.
  apply generate_keys_inv in Hgen. destruct Hgen as (Hf2 & _ & Hn2 & _).
  destruct (save_files priv path w2) as (w3 & Hsave & _ & Hfiles).
  rewrite Hsave in H. injection H as Hka Hw. subst ka. rewrite <- Hw.
  cbn [_private_key].
  assert (Hnow : now w2 = now w)
    by (rewrite Hn2, Hn1; unfold w0, with_keys_dir; destruct (bool_decide _); reflexivity).
  assert (Hfw : files w2 = files w)
    by (rewrite Hf2, Hf1; unfold w0; apply with_keys_dir_files).
  rewrite Hfiles, Hnow, Hfw, Hf.
  pose proof (backup_path_neq path (now w)) as Hneq.
  split; [|split; [|split]].
  - rewrite lookup_insert_ne by congruence. apply lookup_insert_eq.
  - apply lookup_insert_eq.
  - exact Hneq.
  - intros q Hq Hqb. rewrite !lookup_insert_ne by congruence.
    apply lookup_delete_ne. congruence.
Qed.

(** X11: with a difficulty above 255 [__init__] never yields an instance:
    it raises, either the error of reading the key file or the [ValueError]
    of the difficulty predicate, and leaves every file as it was. *)
Theorem init_out_of_range_difficulty (fuel : nat) (datadir name : string)
    (d : Z) (w : world) :
  255 < d ->
  exists e w',
    __init__ (S fuel) datadir name d w = Done (Raise e) w' /\
    files w' = files w.
Proof.
  intros Hd. rewrite init_unfold. cbn zeta.
  set (path := os_path_join (keys_dir_of datadir) name).
  set (w0 := with_keys_dir datadir w).
  assert (Hfw : files w0 = files w) by apply with_keys_dir_files.
  assert (Hgen : forall w1, files w1 = files w ->
            exists e w', _generate_keys (S fuel) d w1 = Done (Raise e) w' /\
                         files w' = files w).
  { intros w1 H1. unfold _generate_keys, bind, logger. cbn [generate_loop].
    unfold bind, generate_candidate, bind. rewrite get_random_float_draw.
    destruct (get_random_float_of_total (randrange (draws (set_log
      (log w1 ++ [(INFO, "Generating new key pair."%string)]) w1)) 2 maxsize))
      as [x Hx]; [apply randrange_range; unfold maxsize; lia|].
    rewrite Hx. unfold lift.
    rewrite is_pubkey_difficult_out_of_range by exact Hd.
    eexists. eexists. split; [reflexivity|]. cbn. exact H1. }
  destruct (load_done path d w0) as ([[[priv pub]|]|e] & w1 & Hload);
    rewrite Hload.
  - exfalso. apply load_some_inv in Hload.
    destruct Hload as (_ & n & _ & _ & _ & _ & _ & Hdiff).
    rewrite is_pubkey_difficult_out_of_range in Hdiff by exact Hd. discriminate.
  - apply load_frame in Hload. destruct Hload as (Hf1 & _).
    destruct (Hgen w1 ltac:(congruence)) as (e & w' & -> & Hf').
    exists e, w'. auto.
  - apply load_frame in Hload. destruct Hload as (Hf1 & _).
    exists e, w1. split; [reflexivity | congruence].
Qed.

(** X18: whatever [__init__] does, returning an instance or raising, it
    touches no file other than the key file and its backup: every other path
    holds what it held. *)
Theorem init_touches_only_key_files (fuel : nat) (datadir name : string)
    (d : Z) (w w' : world) (r : result KeysAuth) :
  __init__ fuel datadir name d w = Done r w' ->
  let path := os_path_join (keys_dir_of datadir) name in
  forall q, q <> path -> q <> backup_path path (now w) ->
    files w' !! q = files w !! q.
Proof.
  intros H path q Hq Hqb. rewrite init_unfold in H. cbn zeta in H.
  fold path in H. set (w0 := with_keys_dir datadir w) in *.
  assert (Hf0 : files w0 = files w) by apply with_keys_dir_files.
  assert (Hn0 : now w0 = now w)
    by (unfold w0, with_keys_dir; destruct (bool_decide _); reflexivity).
  destruct (load_done path d w0) as (r1 & w1 & Hload). rewrite Hload in H.
  apply load_frame in Hload. destruct Hload as (Hf1 & _ & _ & Hn1 & _).
  destruct r1 as [[[priv pub]|]|e].
  - inversion H; subst. congruence.
  - destruct (_generate_keys fuel d w1) as [[[priv pub]|e] w2|] eqn:Hgen;
      try discriminate.
    + apply generate_keys_inv in Hgen. destruct Hgen as (Hf2 & _ & Hn2 & _).
      destruct (save_files priv path w2) as (w3 & Hsave & _ & Hfiles).
      rewrite Hsave in H. inversion H; subst w3.
      rewrite Hfiles. rewrite lookup_insert_ne by congruence.
      assert (Hnow : now w2 = now w) by congruence.
      assert (Hfw : files w2 = files w) by congruence.
      rewrite Hnow, Hfw.
      destruct (files w !! path); [|reflexivity].
      rewrite lookup_insert_ne by congruence.
      apply lookup_delete_ne. congruence.
    + apply generate_keys_inv in Hgen. destruct Hgen as (Hf2 & _).
      inversion H; subst. congruence.
  - inversion H; subst. congruence.
Qed.

End MoreProperties.

(** ** Backup names *)

Section MorePaths.

Local Open Scope string_scope.
Local Arguments String.append !_ _ / : simpl nomatch.

Lemma str_app_inv_tail (a b c : string) : a ++ c = b ++ c -> a = b.
Proof.
  revert b. induction a as [|x a IH]; intros [|y b] H; cbn in H.
  - reflexivity.
  - apply (f_equal String.length) in H. cbn in H.
    rewrite str_length_app in H. lia.
  - apply (f_equal String.length) in H. cbn in H.
    rewrite str_length_app in H. lia.
  - injection H as -> H. f_equal. apply IH. exact H.
Qed.

Lemma has_char_app (c : ascii) (a b : string) :
  has_char c (a ++ b) = has_char c a || has_char c b.
Proof.
  induction a as [|x a IH]; cbn; [reflexivity|].
  rewrite IH. apply orb_assoc.
Qed.

Lemma has_char_startswith (c : ascii) (s : string) :
  has_char c s = false -> startswith c s = false.
Proof.
  destruct s as [|a r]; cbn; [reflexivity|].
  intros H. apply orb_false_iff in H. tauto.
Qed.

Lemma has_slash_replace (t : string) :
  has_char slash (str_replace "." "_" t) = has_char slash t.
Proof.
  induction t as [|a r IH]; cbn; [reflexivity|]. rewrite IH.
  destruct (Ascii.eqb_spec a "."%char) as [->|_]; reflexivity.
Qed.

Lemma backup_name_no_slash (t date : string) :
  has_char slash t = false -> has_char slash date = false ->
  has_char slash (str_replace "." "_" t ++ "_" ++ date ++ ".bak") = false.
Proof.
  intros Ht Hd. rewrite !has_char_app, has_slash_replace, Ht, Hd. reflexivity.
Qed.

Lemma all_char_snoc (c : ascii) (h : string) :
  h <> "" -> all_char c h = true ->
  exists h', h = h' ++ String c "" /\ all_char c h' = true.
Proof.
  induction h as [|a h IH]; [congruence|]. intros _ H. cbn in H.
  apply andb_true_iff in H as [Ha Hh]. apply Ascii.eqb_eq in Ha. subst a.
  destruct h as [|b h'].
  - exists "". auto.
  - destruct (IH ltac:(discriminate) Hh) as (h0 & E & H0).
    exists (String c h0). rewrite E. cbn. rewrite Ascii.eqb_refl, H0. auto.
Qed.

(** What [os.path.split] returns: a last component without a slash, and a
    head that is empty, made of slashes only, or without a trailing slash. *)
Lemma os_path_split_shape (p : string) :
  has_char slash (snd (os_path_split p)) = false /\
  (fst (os_path_split p) = "" \/
   (fst (os_path_split p) <> "" /\ all_char slash (fst (os_path_split p)) = true) \/
   (fst (os_path_split p) <> "" /\ endswith slash (fst (os_path_split p)) = false)).
Proof.
  destruct (last_char_decomp slash p) as [Hno | (h0 & t & -> & Ht)].
  - unfold os_path_split.
    rewrite (rfind_succ_none _ _ Hno), str_take_0, str_drop_0. cbn. auto.
  - unfold os_path_split.
    rewrite (rfind_succ_last _ _ _ Ht), str_take_last, str_drop_last.
    rewrite str_nonempty_app_char. cbn [andb fst snd].
    split; [exact Ht|].
    destruct (all_char slash (h0 ++ String slash "")) eqn:Hall; cbn [negb].
    + right. left. split; [destruct h0; discriminate | exact Hall].
    + right. right. split; [apply rstrip_nonempty; exact Hall | apply rstrip_endswith].
Qed.

Lemma os_path_split_join (h x : string) :
  has_char slash x = false ->
  (h = "" \/ (h <> "" /\ all_char slash h = true) \/
   (h <> "" /\ endswith slash h = false)) ->
  os_path_split (os_path_join h x) = (h, x).
Proof.
  intros Hx Hh. pose proof (has_char_startswith _ _ Hx) as Hst.
  destruct Hh as [-> | [[Hne Hall] | [Hne Hend]]].
  - rewrite os_path_join_empty by exact Hst. unfold os_path_split.
    rewrite (rfind_succ_none _ _ Hx), str_take_0, str_drop_0. reflexivity.
  - destruct (all_char_snoc _ _ Hne Hall) as (h' & -> & Hh').
    rewrite os_path_join_slash
      by (try exact Hst; rewrite endswith_app_char; apply Ascii.eqb_refl).
    rewrite str_app_assoc. change (String slash "" ++ x) with (String slash x).
    unfold os_path_split.
    rewrite (rfind_succ_last _ _ _ Hx), str_take_last, str_drop_last.
    rewrite Hall, andb_false_r. reflexivity.
  - rewrite os_path_join_plain by assumption.
    change (h ++ "/" ++ x) with (h ++ String slash x).
    unfold os_path_split.
    rewrite (rfind_succ_last _ _ _ Hx), str_take_last, str_drop_last.
    rewrite str_nonempty_app_char, all_char_app.
    rewrite (endswith_all_char _ _ Hne Hend). cbn [andb negb].
    rewrite rstrip_app_all by reflexivity. rewrite (rstrip_id _ _ Hend).
    reflexivity.
Qed.

(** X12: the backup is made in the directory of the key file: when the time
    stamp has no slash, splitting the backup path gives back the directory
    of the key path and the backup file name, which has no slash. *)
Theorem backup_in_same_directory (path date : string) :
  has_char slash date = false ->
  let name := str_replace "." "_" (snd (os_path_split path))
              ++ "_" ++ date ++ ".bak" in
  os_path_split (backup_path path date) = (fst (os_path_split path), name) /\
  has_char slash name = false.
Proof.
  intros Hd name. destruct (os_path_split_shape path) as [Ht Hh].
  assert (Hname : has_char slash name = false)
    by (apply backup_name_no_slash; assumption).
  split; [|exact Hname].
  unfold backup_path. destruct (os_path_split path) as [h t] eqn:E.
  cbn [fst snd] in *. apply os_path_split_join; assumption.
Qed.

Lemma backup_path_inj (path d1 d2 : string) :
  backup_path path d1 = backup_path path d2 -> d1 = d2.
Proof.
  unfold backup_path. destruct (os_path_split path) as [h t].
  set (r := str_replace "." "_" t).
  assert (Hst : startswith slash (r ++ "_" ++ d1 ++ ".bak")
                = startswith slash (r ++ "_" ++ d2 ++ ".bak"))
    by (destruct r; reflexivity).
  unfold os_path_join. rewrite Hst.
  assert (Hkey : r ++ "_" ++ d1 ++ ".bak" = r ++ "_" ++ d2 ++ ".bak" -> d1 = d2).
  { intros E. apply str_app_inv_head in E.
    change ("_" ++ d1 ++ ".bak") with (String "_" (d1 ++ ".bak")) in E.
    change ("_" ++ d2 ++ ".bak") with (String "_" (d2 ++ ".bak")) in E.
    injection E as E. apply str_app_inv_tail in E. exact E. }
  destruct (startswith slash (r ++ "_" ++ d2 ++ ".bak")); [exact Hkey|].
  destruct (negb (str_nonempty h) || endswith slash h); intros E;
    apply str_app_inv_head in E.
  - apply Hkey. exact E.
  - apply Hkey.
    change ("/" ++ r ++ "_" ++ d1 ++ ".bak")
      with (String "/" (r ++ "_" ++ d1 ++ ".bak")) in E.
    change ("/" ++ r ++ "_" ++ d2 ++ ".bak")
      with (String "/" (r ++ "_" ++ d2 ++ ".bak")) in E.
    injection E as E. exact E.
Qed.

(** X13: backups made at different time stamps have different paths, so a
    later backup does not replace an earlier one. *)
Theorem backup_path_injective (path d1 d2 : string) :
  backup_path path d1 = backup_path path d2 -> d1 = d2.
Proof. exact (backup_path_inj path d1 d2). Qed.

End MorePaths.

(** ** Saving twice *)


(** ** encrypt, decrypt, sign, verify *)

Section CryptoProperties.

Context `{Ext : Externals} `{Cry : Crypto}.

(** [encrypt] takes the public key as raw bytes or as 128 hexadecimal
    characters: a key of length 128 is decoded first and the bytes go to the
    primitive; without a key the instance's own public key is used; and a
    key of length 128 that does not decode makes [encrypt] raise the decoding
    error. *)
Lemma encrypt_key_forms (self : KeysAuth) (data : bytes) :
  (forall k raw, pylen k = HEX_PUB_KEY_LEN -> decode_hex k = Ok raw ->
     encrypt self data (Some k) = ecies_encrypt data (KBytes raw)) /\
  (forall k, pylen k <> HEX_PUB_KEY_LEN ->
     encrypt self data (Some k) = ecies_encrypt data k) /\
  (forall k e, pylen k = HEX_PUB_KEY_LEN -> decode_hex k = Raise e ->
     encrypt self data (Some k) = Raise e) /\
  encrypt self data None = encrypt self data (Some (KBytes (public_key self))).
Proof.
  unfold encrypt. repeat split.
  - intros k raw Hlen Hdec. apply Z.eqb_eq in Hlen. rewrite Hlen, Hdec. reflexivity.
  - intros k Hlen. apply Z.eqb_neq in Hlen. rewrite Hlen. reflexivity.
  - intros k e Hlen Hdec. apply Z.eqb_eq in Hlen. rewrite Hlen, Hdec. reflexivity.
Qed.

(** [verify] with the public key as 128 hexadecimal characters gives the
    answer, and leaves the world, that [verify] with the decoded 64 raw bytes
    gives. *)
Lemma verify_hex_as_raw (self : KeysAuth) (sig data : bytes) (k : pykey)
    (raw : bytes) (w : world) :
  pylen k = HEX_PUB_KEY_LEN -> decode_hex k = Ok raw ->
  blen raw = PUB_KEY_LEN ->
  verify self sig data (Some k) w = verify self sig data (Some (KBytes raw)) w.
Proof.
  intros Hlen Hdec Hraw. unfold verify, verify_try.
  apply Z.eqb_eq in Hlen. rewrite Hlen, Hdec. cbn [rbind pylen].
  rewrite Hraw. reflexivity.
Qed.

(** X16: on an instance made by [__init__], what [encrypt] produces for the
    instance's own key [decrypt] turns back into the message, provided the
    primitives do so for a private key and the public key derived from it:
    the instance encrypts to the public key of the very private key its
    context is bound to, and passes its 64 bytes on undecoded. *)
Theorem encrypt_decrypt_own_key (fuel : nat) (datadir name : string) (d : Z)
    (w w' : world) (ka : KeysAuth) (m : bytes) :
  (forall priv, List.length priv = 32%nat ->
     exists c, ecies_encrypt m (KBytes (privtopub priv)) = Ok c /\
               ecies_decrypt (ECCx priv) c = Ok m) ->
  __init__ fuel datadir name d w = Done (Ok ka) w' ->
  exists c, encrypt ka m None = Ok c /\ decrypt ka c = Ok m.
Proof.
  intros Hprim H. apply init_inv in H. cbn zeta in H.
  destruct H as (_ & _ & Hlen & Hpub & Hlen64 & _ & _ & Hecc & _).
  destruct (Hprim _ Hlen) as (c & Henc & Hdec).
  exists c. unfold encrypt, decrypt. cbn [pylen]. unfold blen.
  rewrite Hlen64, Hecc. cbn. rewrite Hpub. auto.
Qed.

(** X17: on an instance made by [__init__], [verify] accepts what [sign]
    produces for the same message, with the default key, provided the
    primitives do so for a private key and the public key derived from it;
    nothing is logged. *)
Theorem sign_verify_own_key (fuel : nat) (datadir name : string) (d : Z)
    (w w' : world) (ka : KeysAuth) (m : bytes) (w2 : world) :
  (forall priv, List.length priv = 32%nat ->
     exists sg, ecc_sign (ECCx priv) m = Ok sg /\
                ecdsa_verify (KBytes (privtopub priv)) sg m = Ok true) ->
  __init__ fuel datadir name d w = Done (Ok ka) w' ->
  exists sg, sign ka m = Ok sg /\ verify ka sg m None w2 = Done (Ok true) w2.
Proof.
  intros Hprim H. apply init_inv in H. cbn zeta in H.
  destruct H as (_ & _ & Hlen & Hpub & Hlen64 & _ & _ & Hecc & _).
  destruct (Hprim _ Hlen) as (sg & Hsign & Hver).
  exists sg. unfold sign. rewrite Hecc. split; [exact Hsign|].
  apply verify_ok. unfold verify_try. cbn [pylen]. unfold blen.
  rewrite Hlen64. cbn. rewrite Hpub. exact Hver.
Qed.

(** X15: on an instance made by [__init__], passing the instance's own
    [key_id] as the public key is the same as passing no key, for [verify]
    and for [encrypt], provided [decode_hex] turns the key id back into the
    public key: the 128 characters are decoded, the 64 raw bytes are not. *)
Theorem own_key_id_as_default (fuel : nat) (datadir name : string) (d : Z)
    (w w' : world) (ka : KeysAuth) (sig data : bytes) (w2 : world) :
  __init__ fuel datadir name d w = Done (Ok ka) w' ->
  decode_hex (KStr (key_id ka)) = Ok (public_key ka) ->
  verify ka sig data (Some (KStr (key_id ka))) w2 = verify ka sig data None w2 /\
  encrypt ka data (Some (KStr (key_id ka))) = encrypt ka data None.
Proof.
  intros H Hdec. apply init_inv in H. cbn zeta in H.
  destruct H as (_ & _ & _ & _ & Hlen64 & _ & Hlen128 & _).
  assert (Hk : (pylen (KStr (key_id ka)) =? HEX_PUB_KEY_LEN) = true)
    by (cbn [pylen]; unfold slen; rewrite Hlen128; reflexivity).
  assert (Hp : (pylen (KBytes (public_key ka)) =? HEX_PUB_KEY_LEN) = false)
    by (cbn [pylen]; unfold blen; rewrite Hlen64; reflexivity).
  unfold verify, verify_try, encrypt. rewrite Hk, Hp, Hdec. split; reflexivity.
Qed.

End CryptoProperties.

(** * The statements on the sample collaborators *)

Lemma is_pubkey_difficult_spec_witness :
  0 <= 0 <= 255 /\
  decode_hex (Externals := sample_externals) (KStr "ab") = Ok [Byte.xab] /\
  is_pubkey_difficult (Ext := sample_externals) (KStr "ab") 0
    = Ok (hash_as_int (Ext := sample_externals) [Byte.xab] <? 2 ^ (256 - 0)).
Proof.
  split; [lia|]. split; [reflexivity|].
  exact (proj1 (@is_pubkey_difficult_spec sample_externals 0 (KStr "ab")
                  [Byte.xab] ltac:(lia) eq_refl)).
Defined.



Lemma load_error_propagates_witness :
  open_rb_read locked_key_path locked_world
    = Done (Raise (mkExn PermissionError "Permission denied")) locked_world /\
  _load_and_check_keys (Ext := sample_externals) locked_key_path 0 locked_world
    = Done (Raise (mkExn PermissionError "Permission denied")) locked_world /\
  exists w',
    __init__ (Ext := sample_externals) 0 EmptyString
      (PRIVATE_KEY (Externals := sample_externals)) 0 locked_world
      = Done (Raise (mkExn PermissionError "Permission denied")) w' /\
    files w' = files locked_world /\ draws w' = draws locked_world /\
    log w' = log locked_world.
Proof.
  assert (Hopen : open_rb_read locked_key_path locked_world
                  = Done (Raise (mkExn PermissionError "Permission denied"))
                         locked_world)
    by (vm_compute; reflexivity).
  split; [exact Hopen|].
  destruct (@load_error_propagates sample_externals locked_key_path 0
              locked_world _ Hopen) as [_ H].
  destruct (H ltac:(discriminate)) as [Hload Hinit].
  split; [exact Hload|].
  apply (Hinit 0%nat EmptyString (PRIVATE_KEY (Externals := sample_externals))).
  vm_compute. reflexivity.
Defined.


(** ** The further properties on the sample collaborators *)

Lemma difficulty_leading_zero_bits_witness :
  0 <= 255 <= 255 /\
  (is_pubkey_difficult (Ext := sample_externals) (KBytes []) 255 = Ok true <->
   forall i, 256 - 255 <= i < 256 ->
     Z.testbit (hash_as_int (Ext := sample_externals) []) i = false).
Proof.
  split; [lia|].
  exact (@difficulty_leading_zero_bits sample_externals [] 255 ltac:(lia)).
Defined.


Lemma difficulty_out_of_range_raises_witness :
  255 < 256 /\
  is_pubkey_difficult (Ext := sample_externals) (KBytes []) 256
    = Raise (mkExn ValueError "negative shift count").
Proof.
  split; [lia|].
  exact (proj2 (proj2 (@difficulty_out_of_range_raises sample_externals
                         (KBytes []) 256 ltac:(lia))) [] eq_refl).
Defined.

Lemma load_is_read_only_witness :
  exists w',
    _load_and_check_keys (Ext := sample_externals) locked_key_path 0
      short_key_world = Done (Ok None) w' /\
    files w' = files short_key_world /\ draws w' = draws short_key_world.
Proof.
  assert (E : exists w', _load_and_check_keys (Ext := sample_externals)
                           locked_key_path 0 short_key_world = Done (Ok None) w')
    by (eexists; vm_compute; reflexivity).
  destruct E as [w' E]. exists w'. split; [exact E|].
  destruct (@load_is_read_only sample_externals _ _ _ _ _ E) as (Hf & _ & Hd & _).
  auto.
Defined.

Lemma init_invariant_witness :
  exists ka w',
    __init__ (Ext := sample_externals) 1 "/tmp/golem"
      (PRIVATE_KEY (Externals := sample_externals)) 0 sample_world
      = Done (Ok ka) w' /\
    List.length (_private_key ka) = 32%nat /\
    is_difficult (Ext := sample_externals) ka (difficulty ka) = Ok true.
Proof.
  assert (E : exists ka w', __init__ (Ext := sample_externals) 1 "/tmp/golem"
                (PRIVATE_KEY (Externals := sample_externals)) 0 sample_world
                = Done (Ok ka) w')
    by (eexists; eexists; vm_compute; reflexivity).
  destruct E as (ka & w' & E). exists ka, w'. split; [exact E|].
  destruct (@init_invariant sample_externals _ _ _ _ _ _ _ E)
    as (_ & _ & Hlen & _ & _ & _ & _ & _ & Hdiff & _).
  auto.
Defined.

Lemma init_idempotent_witness :
  exists ka w',
    __init__ (Ext := sample_externals) 1 EmptyString
      (PRIVATE_KEY (Externals := sample_externals)) 0 short_key_world
      = Done (Ok ka) w' /\
    __init__ (Ext := sample_externals) 0 EmptyString
      (PRIVATE_KEY (Externals := sample_externals)) 0 w' = Done (Ok ka) w'.
Proof.
  assert (E : exists ka w', __init__ (Ext := sample_externals) 1 EmptyString
                (PRIVATE_KEY (Externals := sample_externals)) 0 short_key_world
                = Done (Ok ka) w')
    by (eexists; eexists; vm_compute; reflexivity).
  destruct E as (ka & w' & E). exists ka, w'. split; [exact E|].
  apply (@init_idempotent sample_externals 1 0 EmptyString
           (PRIVATE_KEY (Externals := sample_externals)) 0 short_key_world w' ka).
  - change (locked_key_path ∉ ({[ "/var/golem/keys"%string ]} : gset string)).
    intros H. apply elem_of_singleton in H. discriminate.
  - intros H. vm_compute in H. discriminate.
  - exact E.
Defined.

Lemma init_rejected_key_backed_up_witness :
  exists ka w',
    __init__ (Ext := sample_externals) 1 EmptyString
      (PRIVATE_KEY (Externals := sample_externals)) 0 short_key_world
      = Done (Ok ka) w' /\
    files w' !! backup_path locked_key_path (now short_key_world)
      = Some (mkNode [Byte.x07] None).
Proof.
  assert (E : exists ka w', __init__ (Ext := sample_externals) 1 EmptyString
                (PRIVATE_KEY (Externals := sample_externals)) 0 short_key_world
                = Done (Ok ka) w')
    by (eexists; eexists; vm_compute; reflexivity).
  destruct E as (ka & w' & E). exists ka, w'. split; [exact E|].
  refine (proj1 (@init_rejected_key_backed_up sample_externals 1 EmptyString
           (PRIVATE_KEY (Externals := sample_externals)) 0 short_key_world w' ka
           (mkNode [Byte.x07] None) _ eq_refl _ E)).
  - vm_compute. reflexivity.
  - left. vm_compute. discriminate.
Defined.

Lemma init_out_of_range_difficulty_witness :
  255 < 300 /\
  exists e w',
    __init__ (Ext := sample_externals) 1 "/tmp/golem"
      (PRIVATE_KEY (Externals := sample_externals)) 300 sample_world
      = Done (Raise e) w' /\
    files w' = files sample_world.
Proof.
  split; [lia|].
  exact (@init_out_of_range_difficulty sample_externals 0 "/tmp/golem"
           (PRIVATE_KEY (Externals := sample_externals)) 300 sample_world
           ltac:(lia)).
Defined.

Lemma backup_in_same_directory_witness :
  has_char slash "2018-03-01_12-00-00_000000" = false /\
  os_path_split (backup_path "/var/golem/keys/key.peer" "2018-03-01_12-00-00_000000")
  = ("/var/golem/keys", "key_peer_2018-03-01_12-00-00_000000.bak")%string.
Proof.
  split; [reflexivity|].
  exact (proj1 (backup_in_same_directory "/var/golem/keys/key.peer"
                  "2018-03-01_12-00-00_000000" eq_refl)).
Defined.

Lemma backup_path_injective_witness :
  backup_path "/k/key.peer" "t1" = backup_path "/k/key.peer" "t1" /\
  "t1"%string = "t1"%string.
Proof.
  split; [reflexivity|].
  exact (backup_path_injective "/k/key.peer" "t1" "t1" eq_refl).
Defined.


Lemma own_key_id_as_default_witness :
  exists ka w',
    __init__ (Ext := sample_externals_hex) 1 "/tmp/golem"
      (PRIVATE_KEY (Externals := sample_externals_hex)) 0 sample_world
      = Done (Ok ka) w' /\
    decode_hex (Externals := sample_externals_hex) (KStr (key_id ka))
      = Ok (public_key ka) /\
    verify (Ext := sample_externals_hex) ka [] [Byte.x68] (Some (KStr (key_id ka))) w'
      = verify (Ext := sample_externals_hex) ka [] [Byte.x68] None w'.
Proof.
  assert (E : exists ka w',
            __init__ (Ext := sample_externals_hex) 1 "/tmp/golem"
              (PRIVATE_KEY (Externals := sample_externals_hex)) 0 sample_world
              = Done (Ok ka) w' /\
            decode_hex (Externals := sample_externals_hex) (KStr (key_id ka))
              = Ok (public_key ka))
    by (eexists; eexists; split; vm_compute; reflexivity).
  destruct E as (ka & w' & E & Hdec). exists ka, w'.
  split; [exact E|]. split; [exact Hdec|].
  exact (proj1 (@own_key_id_as_default sample_externals_hex sample_crypto
                  _ _ _ _ _ _ ka [] [Byte.x68] w' E Hdec)).
Defined.

Lemma encrypt_decrypt_own_key_witness :
  exists ka w' c,
    __init__ (Ext := sample_externals) 1 "/tmp/golem"
      (PRIVATE_KEY (Externals := sample_externals)) 0 sample_world
      = Done (Ok ka) w' /\
    encrypt (Ext := sample_externals) (Cry := sample_crypto) ka [Byte.x68] None = Ok c /\
    decrypt (Cry := sample_crypto) ka c = Ok [Byte.x68].
Proof.
  assert (E : exists ka w', __init__ (Ext := sample_externals) 1 "/tmp/golem"
                (PRIVATE_KEY (Externals := sample_externals)) 0 sample_world
                = Done (Ok ka) w')
    by (eexists; eexists; vm_compute; reflexivity).
  destruct E as (ka & w' & E).
  destruct (@encrypt_decrypt_own_key sample_externals sample_crypto _ _ _ _ _ _
              ka [Byte.x68] (fun priv _ => ex_intro _ [Byte.x68] (conj eq_refl eq_refl)) E)
    as (c & H1 & H2).
  exists ka, w', c. auto.
Defined.

Lemma sign_verify_own_key_witness :
  exists ka w' sg,
    __init__ (Ext := sample_externals) 1 "/tmp/golem"
      (PRIVATE_KEY (Externals := sample_externals)) 0 sample_world
      = Done (Ok ka) w' /\
    sign (Cry := sample_crypto) ka [Byte.x68] = Ok sg /\
    verify (Ext := sample_externals) ka sg [Byte.x68] None w' = Done (Ok true) w'.
Proof.
  assert (E : exists ka w', __init__ (Ext := sample_externals) 1 "/tmp/golem"
                (PRIVATE_KEY (Externals := sample_externals)) 0 sample_world
                = Done (Ok ka) w')
    by (eexists; eexists; vm_compute; reflexivity).
  destruct E as (ka & w' & E).
  destruct (@sign_verify_own_key sample_externals sample_crypto _ _ _ _ _ _
              ka [Byte.x68] w' (fun priv _ => ex_intro _ [Byte.x68] (conj eq_refl eq_refl)) E)
    as (sg & H1 & H2).
  exists ka, w', sg. auto.
Defined.

Lemma init_touches_only_key_files_witness :
  exists ka w',
    __init__ (Ext := sample_externals) 1 EmptyString
      (PRIVATE_KEY (Externals := sample_externals)) 0 short_key_world
      = Done (Ok ka) w' /\
    files w' !! "/etc/passwd"%string = files short_key_world !! "/etc/passwd"%string.
Proof.
  assert (E : exists ka w', __init__ (Ext := sample_externals) 1 EmptyString
                (PRIVATE_KEY (Externals := sample_externals)) 0 short_key_world
                = Done (Ok ka) w')
    by (eexists; eexists; vm_compute; reflexivity).
  destruct E as (ka & w' & E). exists ka, w'. split; [exact E|].
  apply (@init_touches_only_key_files sample_externals _ _ _ _ _ _ _ E).
  - intros H. vm_compute in H. discriminate.
  - intros H. vm_compute in H. discriminate.
Defined.
